(** * linetools: spectral lines and their measurements

    A shallow embedding of [linetools/spectralline.py]: the classes
    [SpectralLine] and [AbsLine] (construction, [ismatch], [cut_spec],
    [measure_ew], [measure_restew], [generate_voigt], [measure_aodm]) and
    the bulk constructor [many_abslines].

    Modelling conventions.
    - Python objects live in a store ([Heap]); a method takes the reference
      of [self] and runs in a state-and-exception monad in which the store
      survives a raised exception, as it does in Python.
    - Python floats and the magnitudes of astropy quantities are rationals
      ([Q]): arithmetic is exact, there is no NaN and no infinity.
    - The dictionaries [attrib], [analy] and [data] are only ever indexed by
      literal keys; each key is a record field of the type the class
      docstring gives it.  A key that is added later ([analy['pix']],
      [attrib['sigEW']], ...) is an [option] field that starts as [None].
    - The collaborators that are not part of this module (the spectrum's
      [pix_minmax] and [relative_vel], the estimators of
      [linetools.analysis], [LineList] lookup, [SkyCoord.separation]) are
      the fields of the class [Collaborators]; every general result holds
      for all of them. *)

From Stdlib Require Import QArith Qabs SetoidList Sorted DecimalString.
From stdpp Require Import gmap strings list.

Local Open Scope string_scope.

(** ** Numbers *)

Definition Qlt_bool (x y : Q) : bool := negb (Qle_bool y x).

(** [np.sum] of a boolean array: the number of [True] entries. *)
Definition np_sum (l : list bool) : nat := length (filter (fun b => b = true) l).

(** Truth value of a Python integer. *)
Definition truthy (n : nat) : bool := negb (Nat.eqb n 0).

(** ['{:d}'.format(n)]: the decimal digits of an integer, with a leading
    minus sign when it is negative. *)
Definition format_d (n : Z) : string := NilZero.string_of_int (Z.to_int n).

(** ** Units and quantities *)

Inductive LengthUnit := AA | nm.

Record Length := mkLength { qvalue : Q; qunit : LengthUnit }.

(** [q.to(u.AA).value] *)
Definition to_AA (q : Length) : Q :=
  match qunit q with
  | AA => qvalue q
  | nm => (qvalue q * 10)%Q
  end.

(** The unit of a spectrum's dispersion axis; [spec.wcs.unit == 1.] holds
    exactly for [dimensionless_unscaled]. *)
Inductive WcsUnit := dimensionless_unscaled | wcs_length (u : LengthUnit).

Definition wcs_unit_is_one (u : WcsUnit) : bool :=
  match u with dimensionless_unscaled => true | wcs_length _ => false end.

Record SkyCoord := mkSkyCoord { ra : Q; dec : Q }.

(** ** Exceptions and the monad *)

Inductive exn :=
  | ValueError (msg : string)
  | TypeError (msg : string)
  | IndexError
  | KeyError (key : string)
  | AttributeError (attr : string)
  | TransitionNotFound (msg : string)
  | ReferenceError.

Inductive result (A : Type) :=
  | Ok (a : A)
  | Raise (e : exn).
Arguments Ok {A} a.
Arguments Raise {A} e.

(** ** Objects *)

(** [SpectralLine.data]: the atomic data of a transition. *)
Record AtomicData := mkAtomicData {
  data_wrest : Length;
  data_name : string;
  data_Z : Z;
  data_ion : Z;
  data_f : Q;
}.

(** [SpectralLine.analy] *)
Record Analy := mkAnaly {
  analy_spec : option nat;
  analy_wvlim : list Q;
  analy_vlim : list Q;
  analy_do_analysis : Z;
  analy_pix : option (list nat);
  analy_flg_eye : Z;
  analy_flg_limit : Z;
  analy_datafile : string;
  analy_name : string;
}.

(** [SpectralLine.attrib] *)
Record Attrib := mkAttrib {
  attr_coord : SkyCoord;
  attr_z : Q;
  attr_zsig : Q;
  attr_v : Q;
  attr_vsig : Q;
  attr_EW : Q;
  attr_EWsig : Q;
  attr_flgEW : Z;
  attr_sigEW : option Q;
  attr_N : Q;
  attr_Nsig : Q;
  attr_flagN : Z;
  attr_b : Q;
  attr_bsig : Q;
  attr_sigN : option Q;
  attr_logN : option Q;
  attr_sig_logN : option Q;
}.

Record AbsLine := mkAbsLine {
  ltype : string;
  wrest : Length;
  trans : string;
  data : AtomicData;
  analy : Analy;
  attrib : Attrib;
}.

(** The spectrum container: [conti] and [velo] are attributes that a
    spectrum may lack. *)
Record XSpectrum1D := mkXSpectrum1D {
  wcs_unit : WcsUnit;
  dispersion : list Q;
  flux : list Q;
  sig : list Q;
  conti : option (list Q);
  velo : option (list Q);
}.

Record LineList := mkLineList {
  closest : bool;
  catalog : list AtomicData;
}.

(** The first argument of a line constructor. *)
Inductive TransArg :=
  | TQuantity (q : Length)
  | TStr (s : string)
  | TOther.

(** The [linelist] argument of a line constructor: [LLRef r] is an
    already-resolved [LineList] object. *)
Inductive LinelistArg :=
  | LLNone
  | LLName (s : string)
  | LLRef (r : nat)
  | LLOther.

(** The store.  [lookup_log] records the evaluations of [llist[trans]] in
    the order they happen; no code reads it. *)
Record Heap := mkHeap {
  lines : gmap nat AbsLine;
  spectra : gmap nat XSpectrum1D;
  linelists : gmap nat LineList;
  next_id : nat;
  lookup_log : list TransArg;
}.

Definition M (A : Type) : Type := Heap -> result A * Heap.

Definition ret {A} (a : A) : M A := fun h => (Ok a, h).
Definition raise {A} (e : exn) : M A := fun h => (Raise e, h).
Definition bind {A B} (m : M A) (k : A -> M B) : M B :=
  fun h => match m h with
           | (Ok a, h') => k a h'
           | (Raise e, h') => (Raise e, h')
           end.

Declare Scope py_scope.
Delimit Scope py_scope with py.
Notation "x <- m ;; k" := (bind m (fun x => k))
  (at level 100, m at next level, right associativity) : py_scope.
Notation "m ;;; k" := (bind m (fun _ => k))
  (at level 100, right associativity) : py_scope.
Local Open Scope py_scope.

(** Reading and writing the store.  A reference that the store does not
    hold cannot arise in Python; reading one raises [ReferenceError]. *)
Definition get_line (r : nat) : M AbsLine :=
  fun h => match lines h !! r with
           | Some L => (Ok L, h)
           | None => (Raise ReferenceError, h)
           end.

Definition get_spec (r : nat) : M XSpectrum1D :=
  fun h => match spectra h !! r with
           | Some s => (Ok s, h)
           | None => (Raise ReferenceError, h)
           end.

Definition get_linelist (r : nat) : M LineList :=
  fun h => match linelists h !! r with
           | Some l => (Ok l, h)
           | None => (Raise ReferenceError, h)
           end.

Definition put_line (r : nat) (L : AbsLine) : M unit :=
  fun h => (Ok tt, mkHeap (<[r:=L]> (lines h)) (spectra h) (linelists h)
                          (next_id h) (lookup_log h)).

Definition put_spec (r : nat) (s : XSpectrum1D) : M unit :=
  fun h => (Ok tt, mkHeap (lines h) (<[r:=s]> (spectra h)) (linelists h)
                          (next_id h) (lookup_log h)).

Definition put_linelist (r : nat) (l : LineList) : M unit :=
  fun h => (Ok tt, mkHeap (lines h) (spectra h) (<[r:=l]> (linelists h))
                          (next_id h) (lookup_log h)).

Definition log_lookup (t : TransArg) : M unit :=
  fun h => (Ok tt, mkHeap (lines h) (spectra h) (linelists h)
                          (next_id h) (lookup_log h ++ [t])).

(** A new object: its reference is the current [next_id]. *)
Definition alloc_line (L : AbsLine) : M nat :=
  fun h => (Ok (next_id h),
            mkHeap (<[next_id h:=L]> (lines h)) (spectra h) (linelists h)
                   (S (next_id h)) (lookup_log h)).

Definition alloc_spec (s : XSpectrum1D) : M nat :=
  fun h => (Ok (next_id h),
            mkHeap (lines h) (<[next_id h:=s]> (spectra h)) (linelists h)
                   (S (next_id h)) (lookup_log h)).

Definition lift {A} (r : result A) : M A := fun h => (r, h).

(** Field updates. *)
Definition set_analy (L : AbsLine) (a : Analy) : AbsLine :=
  mkAbsLine (ltype L) (wrest L) (trans L) (data L) a (attrib L).
Definition set_attrib (L : AbsLine) (a : Attrib) : AbsLine :=
  mkAbsLine (ltype L) (wrest L) (trans L) (data L) (analy L) a.

Definition set_pix (a : Analy) (pix : list nat) : Analy :=
  mkAnaly (analy_spec a) (analy_wvlim a) (analy_vlim a) (analy_do_analysis a)
          (Some pix) (analy_flg_eye a) (analy_flg_limit a) (analy_datafile a)
          (analy_name a).

Definition set_velo (s : XSpectrum1D) (v : list Q) : XSpectrum1D :=
  mkXSpectrum1D (wcs_unit s) (dispersion s) (flux s) (sig s) (conti s) (Some v).

Definition set_closest (l : LineList) (c : bool) : LineList :=
  mkLineList c (catalog l).

Definition set_attr_EW (a : Attrib) (ew : Q) : Attrib :=
  mkAttrib (attr_coord a) (attr_z a) (attr_zsig a) (attr_v a) (attr_vsig a)
           ew (attr_EWsig a) (attr_flgEW a) (attr_sigEW a)
           (attr_N a) (attr_Nsig a) (attr_flagN a) (attr_b a) (attr_bsig a)
           (attr_sigN a) (attr_logN a) (attr_sig_logN a).

Definition set_attr_sigEW (a : Attrib) (sigew : Q) : Attrib :=
  mkAttrib (attr_coord a) (attr_z a) (attr_zsig a) (attr_v a) (attr_vsig a)
           (attr_EW a) (attr_EWsig a) (attr_flgEW a) (Some sigew)
           (attr_N a) (attr_Nsig a) (attr_flagN a) (attr_b a) (attr_bsig a)
           (attr_sigN a) (attr_logN a) (attr_sig_logN a).

Definition set_flagN (a : Attrib) (flg : Z) : Attrib :=
  mkAttrib (attr_coord a) (attr_z a) (attr_zsig a) (attr_v a) (attr_vsig a)
           (attr_EW a) (attr_EWsig a) (attr_flgEW a) (attr_sigEW a)
           (attr_N a) (attr_Nsig a) flg (attr_b a) (attr_bsig a)
           (attr_sigN a) (attr_logN a) (attr_sig_logN a).

Definition set_N (a : Attrib) (n sign : Q) : Attrib :=
  mkAttrib (attr_coord a) (attr_z a) (attr_zsig a) (attr_v a) (attr_vsig a)
           (attr_EW a) (attr_EWsig a) (attr_flgEW a) (attr_sigEW a)
           n (attr_Nsig a) (attr_flagN a) (attr_b a) (attr_bsig a)
           (Some sign) (attr_logN a) (attr_sig_logN a).

Definition set_logN (a : Attrib) (logn siglogn : Q) : Attrib :=
  mkAttrib (attr_coord a) (attr_z a) (attr_zsig a) (attr_v a) (attr_vsig a)
           (attr_EW a) (attr_EWsig a) (attr_flgEW a) (attr_sigEW a)
           (attr_N a) (attr_Nsig a) (attr_flagN a) (attr_b a) (attr_bsig a)
           (attr_sigN a) (Some logn) (Some siglogn).

Definition set_attr_N (a : Attrib) (n : Q) : Attrib :=
  mkAttrib (attr_coord a) (attr_z a) (attr_zsig a) (attr_v a) (attr_vsig a)
           (attr_EW a) (attr_EWsig a) (attr_flgEW a) (attr_sigEW a)
           n (attr_Nsig a) (attr_flagN a) (attr_b a) (attr_bsig a)
           (attr_sigN a) (attr_logN a) (attr_sig_logN a).

(** The assignment [line.attrib['N'] = x] by a user of the line [r]. *)
Definition assign_attrib_N (r : nat) (x : Q) : M unit :=
  L <- get_line r ;;
  put_line r (set_attrib L (set_attr_N (attrib L) x)).

(** ** Array helpers *)

(** [arr[pix]] for an index array [pix]. *)
Fixpoint np_take (arr : list Q) (pix : list nat) : result (list Q) :=
  match pix with
  | [] => Ok []
  | i :: rest =>
      match arr !! i with
      | None => Raise IndexError
      | Some x =>
          match np_take arr rest with
          | Ok xs => Ok (x :: xs)
          | Raise e => Raise e
          end
      end
  end.

(** Element-wise [a / b] of two arrays of one shape. *)
Fixpoint np_div (a b : list Q) : list Q :=
  match a, b with
  | x :: a', y :: b' => (x / y)%Q :: np_div a' b'
  | _, _ => []
  end.

(** ** Collaborators *)

Class Collaborators := {
  (** [spec.pix_minmax(wvlim)[0]] *)
  pix_minmax_wv : XSpectrum1D -> list Q -> list nat;
  (** [spec.pix_minmax(z, wrest, vlim)[0]] *)
  pix_minmax_vel : XSpectrum1D -> Q -> Length -> list Q -> list nat;
  (** [spec.relative_vel(wv_obs)] *)
  relative_vel : XSpectrum1D -> Length -> list Q;
  (** [lau.box_ew((wv, fx, sig))] *)
  box_ew : list Q -> list Q -> list Q -> Q * Q;
  (** [lau.gaussian_ew((wv, fx, sig), ltype, initial_guesses=...)] *)
  gaussian_ew : list Q -> list Q -> list Q -> string -> option (Q * Q * Q) -> Q * Q;
  (** [laa.aodm((velo, fx, sig), (wrest, f))] *)
  aodm : list Q -> list Q -> list Q -> Length -> Q -> Q * Q * bool;
  (** [laa.log_clm(attrib)] *)
  log_clm : Attrib -> Q * Q;
  (** [lav.voigt_from_abslines(wave, line)] *)
  voigt_from_abslines : list Q -> AbsLine -> XSpectrum1D;
  (** [coord.separation(other)], in arcseconds *)
  separation : SkyCoord -> SkyCoord -> Q;
  (** [LineList(name)] *)
  LineList_new : string -> LineList;
  (** [llist[trans]] *)
  LineList_getitem : LineList -> TransArg -> result AtomicData;
}.

(** ** [numpy] helpers used by the module *)

(** [np.allclose(a, b, rtol, atol)] on scalars:
    [abs(a - b) <= atol + rtol * abs(b)]. *)
Definition np_allclose (a b rtol atol : Q) : bool :=
  Qle_bool (Qabs (a - b)) (atol + rtol * Qabs b).

(** The defaults of [np.allclose]. *)
Definition default_rtol : Q := 1 # 100000.
Definition default_atol : Q := 1 # 100000000.

(** [np.unique]: the sorted distinct values. *)
Fixpoint insert_uniq (x : Q) (l : list Q) : list Q :=
  match l with
  | [] => [x]
  | y :: l' =>
      if Qeq_bool x y then l
      else if Qle_bool x y then x :: l
      else y :: insert_uniq x l'
  end.

Definition np_unique (l : list Q) : list Q := foldr insert_uniq [] l.

(** A [dict] whose keys are floats, in insertion order. *)
Fixpoint dict_get (d : list (Q * nat)) (k : Q) : option nat :=
  match d with
  | [] => None
  | (k', v) :: d' => if Qeq_bool k k' then Some v else dict_get d' k
  end.

Fixpoint dict_set (d : list (Q * nat)) (k : Q) (v : nat) : list (Q * nat) :=
  match d with
  | [] => [(k, v)]
  | (k', v') :: d' =>
      if Qeq_bool k k' then (k', v) :: d' else (k', v') :: dict_set d' k v
  end.

(** The [inp] argument of [ismatch]. *)
Inductive MatchInp :=
  | InpLine (other : nat)
  | InpTuple (z : Q) (w : Length)
  | InpOther.

Definition set_spec (a : Analy) (s : option nat) : Analy :=
  mkAnaly s (analy_wvlim a) (analy_vlim a) (analy_do_analysis a)
          (analy_pix a) (analy_flg_eye a) (analy_flg_limit a) (analy_datafile a)
          (analy_name a).

(** ** The methods of [SpectralLine] and [AbsLine] *)

Section Methods.
Context `{Collaborators}.

(** The line list a constructor works on: an object it has just made, or
    the caller's. *)
Inductive llist_handle :=
  | Local (l : LineList)
  | Shared (r : nat).

(** [AbsLine.fill_data].  [self] comes from [SpectralLine.__init__]. *)
Definition fill_data (self : AbsLine) (trans_ : TransArg)
    (linelist : LinelistArg) (closest_ : bool) : M AbsLine :=
  (* Deal with LineList *)
  llist <- match linelist with
           | LLNone => ret (Local (LineList_new "ISM"))
           | LLName s => ret (Local (LineList_new s))
           | LLRef r => ret (Shared r)
           | LLOther => raise (ValueError "Bad input for linelist")
           end ;;
  (* llist.closest = closest *)
  ll <- match llist with
        | Local l => ret (set_closest l closest_)
        | Shared r =>
            l <- get_linelist r ;;
            put_linelist r (set_closest l closest_) ;;;
            ret (set_closest l closest_)
        end ;;
  (* newline = llist[trans]; self.data.update(newline) *)
  log_lookup trans_ ;;;
  newline <- lift (LineList_getitem ll trans_) ;;
  let a := analy self in
  let t := attrib self in
  ret (mkAbsLine (ltype self) (data_wrest newline) (data_name newline) newline
         (mkAnaly (analy_spec a) (analy_wvlim a) (analy_vlim a)
                  (analy_do_analysis a) (analy_pix a) 0 0 "" (data_name newline))
         (mkAttrib (attr_coord t) (attr_z t) (attr_zsig t) (attr_v t)
                   (attr_vsig t) (attr_EW t) (attr_EWsig t) (attr_flgEW t)
                   (attr_sigEW t) 0 0 0 0 0
                   (attr_sigN t) (attr_logN t) (attr_sig_logN t))).

(** [SpectralLine.__init__]; the method [fill_data] it calls is the one
    of [AbsLine], the only class that is instantiated.  The fields
    [wrest], [trans] and [data] of the first record are not yet set in
    Python; [fill_data] sets them before anything reads them. *)
Definition SpectralLine_init (ltype_ : string) (trans_ : TransArg)
    (linelist : LinelistArg) (closest_ : bool) (z : Q) : M AbsLine :=
  if negb (String.eqb ltype_ "Abs")
  then raise (ValueError ("spec/lines: Not ready for type " ++ ltype_))
  else
    match trans_ with
    | TOther => raise (ValueError "Rest wavelength must be a Quantity or str")
    | _ =>
        let self :=
          mkAbsLine ltype_ (mkLength 0 AA) ""
            (mkAtomicData (mkLength 0 AA) "" 0 0 0)
            (mkAnaly None [0%Q; 0%Q] [0%Q; 0%Q] 1 None 0 0 "" "")
            (mkAttrib (mkSkyCoord 0 0) z 0 0 0 0 0 0 None 0 0 0 0 0
                      None None None) in
        fill_data self trans_ linelist closest_
    end.

(** [AbsLine(trans, linelist=..., closest=..., z=...)]: the new object. *)
Definition AbsLine_init (trans_ : TransArg) (linelist : LinelistArg)
    (closest_ : bool) (z : Q) : M nat :=
  L <- SpectralLine_init "Abs" trans_ linelist closest_ z ;;
  alloc_line L.

(** [SpectralLine.ismatch] *)
Definition ismatch (self : nat) (inp : MatchInp) (Zion : option (Z * Z))
    (RADec : option (Q * Q)) : M bool :=
  L <- get_line self ;;
  x <- match inp with
       | InpLine other =>
           Lo <- get_line other ;;
           ret (wrest Lo, attr_z (attrib Lo),
                match Zion with
                | None => Some (data_Z (data Lo), data_ion (data Lo))
                | Some zi => Some zi
                end,
                match RADec with
                | None => Some (attr_coord (attrib Lo))
                | Some _ => None
                end)
       | InpTuple z w => ret (w, z, Zion, None)
       | InpOther => raise (ValueError "ismatch: Bad input")
       end ;;
  let '(wrest_, z, Zion_, coord) := x in
  let answer :=
    np_allclose (to_AA (wrest L)) (to_AA wrest_) default_rtol default_atol
    && np_allclose (attr_z (attrib L)) z (1 # 1000000) default_atol in
  let answer :=
    match Zion_ with
    | None => answer
    | Some (Z_, ion_) =>
        answer && Z.eqb (data_Z (data L)) Z_ && Z.eqb (data_ion (data L)) ion_
    end in
  let answer :=
    match coord, RADec with
    | None, None => answer
    | Some c, _ =>
        answer && Qlt_bool (separation c (attr_coord (attrib L))) (1 # 10)
    | None, Some (ra_, dec_) =>
        answer && Qlt_bool (separation (mkSkyCoord ra_ dec_)
                                       (attr_coord (attrib L))) (1 # 10)
    end in
  ret answer.

(** [SpectralLine.cut_spec]; the result is [(fx, sig, (wave, velo))].
    The argument [relvel] is left out: the method never reads it. *)
Definition cut_spec (self : nat) (normalize : bool)
    : M (list Q * list Q * (list Q * list Q)) :=
  L <- get_line self ;;
  (* Checks *)
  match analy_spec (analy L) with
  | None => raise (ValueError "spectralline.cut_spec: Need to set spectrum!")
  | Some r =>
      sp <- get_spec r ;;
      if wcs_unit_is_one (wcs_unit sp)
      then raise (ValueError "Expecting a unit!")
      else
        (* Pixels for evaluation *)
        pix <- (if truthy (np_sum (map (fun x => Qlt_bool 0 x)
                                       (analy_wvlim (analy L))))
                then ret (pix_minmax_wv sp (analy_wvlim (analy L)))
                else if truthy (np_sum (map (fun x => Qlt_bool 0 (Qabs x))
                                            (analy_vlim (analy L))))
                then ret (pix_minmax_vel sp (attr_z (attrib L)) (wrest L)
                                         (analy_vlim (analy L)))
                else raise (ValueError
                       "spectralline.cut_spec: Need to set wvlim or vlim!")) ;;
        put_line self (set_analy L (set_pix (analy L) pix)) ;;;
        (* Cut for analysis *)
        fx <- lift (np_take (flux sp) pix) ;;
        sg <- lift (np_take (sig sp) pix) ;;
        wave <- lift (np_take (dispersion sp) pix) ;;
        (* Velocity array *)
        let v := relative_vel sp
                   (mkLength (qvalue (wrest L) * (1 + attr_z (attrib L)))
                             (qunit (wrest L))) in
        put_spec r (set_velo sp v) ;;;
        velo_ <- lift (np_take v pix) ;;
        (* Normalize? *)
        if normalize then
          match conti sp with
          | None => ret (fx, sg, (wave, velo_))
          | Some c =>
              ct <- lift (np_take c pix) ;;
              ret (np_div fx ct, np_div sg ct, (wave, velo_))
          end
        else ret (fx, sg, (wave, velo_))
  end.

(** [SpectralLine.measure_ew] *)
Definition measure_ew (self : nat) (flg : Z)
    (initial_guesses : option (Q * Q * Q)) : M unit :=
  (* Cut spectrum *)
  c <- cut_spec self true ;;
  let '(fx, sg, (wv, _)) := c in
  L <- get_line self ;;
  (* Calculate *)
  ew <- (if Z.eqb flg 1 then ret (box_ew wv fx sg)
         else if Z.eqb flg 2
         then ret (gaussian_ew wv fx sg (ltype L) initial_guesses)
         else raise (ValueError ("measure_ew: Not ready for this flag "
                                 ++ format_d flg))) ;;
  (* Fill *)
  put_line self
    (set_attrib L (set_attr_sigEW (set_attr_EW (attrib L) (fst ew)) (snd ew))).

(** [SpectralLine.measure_restew]; [flg] and [initial_guesses] are the
    keyword arguments passed on to [measure_ew]. *)
Definition measure_restew (self : nat) (flg : Z)
    (initial_guesses : option (Q * Q * Q)) : M unit :=
  (* Standard call *)
  measure_ew self flg initial_guesses ;;;
  (* Push to rest-frame *)
  L <- get_line self ;;
  let a1 := set_attr_EW (attrib L)
              (attr_EW (attrib L) / (attr_z (attrib L) + 1))%Q in
  put_line self (set_attrib L a1) ;;;
  match attr_sigEW a1 with
  | None => raise (KeyError "sigEW")
  | Some s =>
      put_line self
        (set_attrib L (set_attr_sigEW a1 (s / (attr_z a1 + 1))%Q))
  end.

(** [AbsLine.generate_voigt].  The statement [raise ('...')] raises a
    [TypeError], because a string is not an exception; the bare [except]
    around the read of the dispersion catches every failure of it. *)
Definition generate_voigt (self : nat) (wave : option (list Q))
    : M XSpectrum1D :=
  L <- get_line self ;;
  (* Checks *)
  if Qlt_bool (attr_N (attrib L)) 1
  then raise (ValueError "Need to initialize log column density in attrib['N']")
  else if Qlt_bool (attr_b (attrib L)) 1
  then raise (ValueError "Need to initialize Doppler parameter in attrib['b']")
  else
    wave_ <- match wave with
             | Some w => ret w
             | None =>
                 fun h =>
                   match analy_spec (analy L) with
                   | Some r =>
                       match spectra h !! r with
                       | Some sp => (Ok (dispersion sp), h)
                       | None =>
                           (Raise (TypeError
                              "exceptions must derive from BaseException"), h)
                       end
                   | None =>
                       (Raise (TypeError
                          "exceptions must derive from BaseException"), h)
                   end
             end ;;
    (* Main call *)
    ret (voigt_from_abslines wave_ L).

(** [AbsLine.measure_aodm] *)
Definition measure_aodm (self : nat) (nsig : Q) : M unit :=
  (* Cut spectrum *)
  c <- cut_spec self true ;;
  let '(fx, sg, (_, velo_)) := c in
  L <- get_line self ;;
  (* Calculate *)
  let '(N, sigN, flg_sat) := aodm velo_ fx sg (wrest L) (data_f (data L)) in
  (* Flag *)
  let a1 := set_flagN (attrib L)
              (if (flg_sat : bool) then 2
               else if Qlt_bool (nsig * sigN) N then 1 else 3) in
  (* Values *)
  let a2 := set_N a1 N sigN in
  (* Log *)
  let '(logN, sig_logN) := log_clm a2 in
  put_line self (set_attrib L (set_logN a2 logN sig_logN)).

(** [copy.deepcopy] of a line: the line and the spectrum it refers to. *)
Definition deepcopy (r : nat) : M nat :=
  L <- get_line r ;;
  match analy_spec (analy L) with
  | None => alloc_line L
  | Some s =>
      sp <- get_spec s ;;
      s' <- alloc_spec sp ;;
      alloc_line (set_analy L (set_spec (analy L) (Some s')))
  end.

(** The loop [for iuni in uniq_wrest: adict[iuni] = AbsLine(...)]. *)
Fixpoint build_adict (uniq_wrest : list Q) (unit_ : LengthUnit)
    (llist : LinelistArg) (adict : list (Q * nat)) : M (list (Q * nat)) :=
  match uniq_wrest with
  | [] => ret adict
  | iuni :: rest =>
      r <- AbsLine_init (TQuantity (mkLength iuni unit_)) llist false 0 ;;
      build_adict rest unit_ llist (dict_set adict iuni r)
  end.

(** The loop [for iwrestv in wrestv: abs_lines.append(deepcopy(...))]. *)
Fixpoint copy_em_up (wrestv : list Q) (adict : list (Q * nat))
    : M (list nat) :=
  match wrestv with
  | [] => ret []
  | iwrestv :: rest =>
      match dict_get adict iwrestv with
      | None => raise (KeyError "iwrestv")
      | Some r =>
          c <- deepcopy r ;;
          cs <- copy_em_up rest adict ;;
          ret (c :: cs)
      end
  end.

(** [many_abslines] *)
Definition many_abslines (all_wrest : list Length) (llist : LinelistArg)
    : M (list nat) :=
  (* Find unique lines *)
  let wrestv := map qvalue all_wrest in
  let uniq_wrest := np_unique wrestv in
  (* Generate a simple dict *)
  match all_wrest with
  | [] => raise IndexError
  | first :: _ =>
      adict <- build_adict uniq_wrest (qunit first) llist [] ;;
      (* Copy em up *)
      copy_em_up wrestv adict
  end.

End Methods.

(** ** Sample collaborators and sample objects

    One concrete choice of the collaborators, used to run the methods on
    concrete lines and spectra.  The spectrum methods and the line-list
    lookup follow the words of the specification; the estimators are
    stand-ins of the right type (sums where the real ones integrate):
    every general result holds for all collaborators, and only the
    sample runs compute with these. *)

Module Sample.

(** Speed of light in km/s. *)
Definition c_kms : Q := 299792458 # 1000.

Fixpoint indices_between (lo hi : Q) (l : list Q) (i : nat) : list nat :=
  match l with
  | [] => []
  | w :: l' =>
      if Qle_bool lo w && Qle_bool w hi
      then i :: indices_between lo hi l' (S i)
      else indices_between lo hi l' (S i)
  end.

(** Modelled from the spec: [XSpectrum1D.pix_minmax] (the spectrum class
    is not under src); "the pixel indices bounding that interval". *)
Definition pix_minmax_wv (sp : XSpectrum1D) (wvlim : list Q) : list nat :=
  match wvlim with
  | [lo; hi] => indices_between lo hi (dispersion sp) 0
  | _ => []
  end.

(** Modelled from the spec: [XSpectrum1D.pix_minmax] with a velocity
    interval; "pixel indices bounding that velocity interval relative to
    the line's redshifted rest wavelength". *)
Definition pix_minmax_vel (sp : XSpectrum1D) (z : Q) (w : Length)
    (vlim : list Q) : list nat :=
  match vlim with
  | [lo; hi] =>
      indices_between ((z + 1) * (to_AA w + to_AA w * lo / c_kms))
                      ((z + 1) * (to_AA w + to_AA w * hi / c_kms))
                      (dispersion sp) 0
  | _ => []
  end.

(** Modelled from the spec: [XSpectrum1D.relative_vel]; the velocity of
    every pixel relative to the reference wavelength, in km/s. *)
Definition relative_vel (sp : XSpectrum1D) (w : Length) : list Q :=
  map (fun x => c_kms * (x - to_AA w) / to_AA w)%Q (dispersion sp).

Definition Qsum (l : list Q) : Q := foldr Qplus 0%Q l.

Definition box_ew (wv fx sg : list Q) : Q * Q :=
  (Qred (Qsum (map (fun f => 1 - f)%Q fx)), Qred (Qsum sg)).

Definition gaussian_ew (wv fx sg : list Q) (ltype_ : string)
    (guess : option (Q * Q * Q)) : Q * Q :=
  match guess with
  | Some (amp, _, stddev) => (Qred (amp * stddev), Qred (Qsum sg))
  | None => box_ew wv fx sg
  end.

Definition aodm (velo_ fx sg : list Q) (w : Length) (f : Q) : Q * Q * bool :=
  (Qred (Qsum (map (fun x => 1 - x)%Q fx) / (f * to_AA w)),
   Qred (Qsum sg / (f * to_AA w)),
   existsb (fun x => Qle_bool x 0) fx).

Definition log_clm (a : Attrib) : Q * Q :=
  (attr_N a, default 0%Q (attr_sigN a)).

Definition voigt_from_abslines (wave : list Q) (L : AbsLine) : XSpectrum1D :=
  mkXSpectrum1D (wcs_length AA) wave (map (fun _ => 1%Q) wave)
                (map (fun _ => 0%Q) wave) None None.

Definition separation (a b : SkyCoord) : Q :=
  ((Qabs (ra a - ra b) + Qabs (dec a - dec b)) * 3600)%Q.

Definition HI_1215 : AtomicData :=
  mkAtomicData (mkLength (121567 # 100) AA) "HI 1215" 1 1 (4164 # 10000).
Definition CIV_1548 : AtomicData :=
  mkAtomicData (mkLength (1548195 # 1000) AA) "CIV 1548" 6 4 (1908 # 10000).
Definition CIV_1550 : AtomicData :=
  mkAtomicData (mkLength (155077 # 100) AA) "CIV 1550" 6 4 (952 # 10000).

(** Modelled from the spec: [LineList(name)] (the line-list class is not
    under src); a named reference list, here of one or three
    transitions. *)
Definition LineList_new (name : string) : LineList :=
  if String.eqb name "HI" then mkLineList false [HI_1215]
  else mkLineList false [HI_1215; CIV_1548; CIV_1550].

Fixpoint find_name (s : string) (l : list AtomicData) : option AtomicData :=
  match l with
  | [] => None
  | d :: l' => if String.eqb s (data_name d) then Some d else find_name s l'
  end.

Fixpoint find_wrest (w : Q) (l : list AtomicData) : option AtomicData :=
  match l with
  | [] => None
  | d :: l' =>
      if Qlt_bool (Qabs (w - to_AA (data_wrest d))) (1 # 1000)
      then Some d else find_wrest w l'
  end.

Fixpoint nearest (w : Q) (best : AtomicData) (l : list AtomicData)
    : AtomicData :=
  match l with
  | [] => best
  | d :: l' =>
      if Qlt_bool (Qabs (w - to_AA (data_wrest d)))
                  (Qabs (w - to_AA (data_wrest best)))
      then nearest w d l' else nearest w best l'
  end.

(** Modelled from the spec: [LineList.__getitem__]; lookup by name or by
    wavelength, where "when [closest] is true, lookup-by-wavelength
    returns the nearest cataloged transition instead of requiring an exact
    match", and a "lookup failure (unknown name, no match within
    tolerance)" is the error [TransitionNotFound]. *)
Definition LineList_getitem (ll : LineList) (t : TransArg)
    : result AtomicData :=
  match t with
  | TStr s =>
      match find_name s (catalog ll) with
      | Some d => Ok d
      | None => Raise (TransitionNotFound "no such transition")
      end
  | TQuantity q =>
      match find_wrest (to_AA q) (catalog ll) with
      | Some d => Ok d
      | None =>
          match closest ll, catalog ll with
          | true, d :: l' => Ok (nearest (to_AA q) d l')
          | _, _ => Raise (TransitionNotFound "no such transition")
          end
      end
  | TOther => Raise (TransitionNotFound "no such transition")
  end.

#[export] Instance collaborators : Collaborators :=
  Build_Collaborators pix_minmax_wv pix_minmax_vel relative_vel box_ew
    gaussian_ew aodm log_clm voigt_from_abslines separation LineList_new
    LineList_getitem.

(** A line as the constructor leaves it, then given a redshift, a
    spectrum and analysis windows. *)
Definition line_of (d : AtomicData) (z : Q) (spec : option nat)
    (wvlim vlim : list Q) : AbsLine :=
  mkAbsLine "Abs" (data_wrest d) (data_name d) d
    (mkAnaly spec wvlim vlim 1 None 0 0 "" (data_name d))
    (mkAttrib (mkSkyCoord 0 0) z 0 0 0 0 0 0 None 0 0 0 0 0 None None None).

(** The store with the line [L] at reference 0 and the spectrum [sp] at
    reference 1. *)
Definition heap_of (L : AbsLine) (sp : XSpectrum1D) : Heap :=
  mkHeap {[ 0%nat := L ]} {[ 1%nat := sp ]} ∅ 2 [].

(** [L] after [L.attrib['N'] = N; L.attrib['b'] = b]. *)
Definition with_Nb (L : AbsLine) (N b : Q) : AbsLine :=
  let a := attrib L in
  set_attrib L
    (mkAttrib (attr_coord a) (attr_z a) (attr_zsig a) (attr_v a) (attr_vsig a)
              (attr_EW a) (attr_EWsig a) (attr_flgEW a) (attr_sigEW a)
              N (attr_Nsig a) (attr_flagN a) b (attr_bsig a)
              (attr_sigN a) (attr_logN a) (attr_sig_logN a)).

(** Ly-alpha at redshift [z], attached to the spectrum at reference 1,
    with the wavelength window [wvlim] and the velocity window [vlim]. *)
Definition lya (z : Q) (wvlim vlim : list Q) : AbsLine :=
  line_of HI_1215 z (Some 1%nat) wvlim vlim.

(** A store that holds only the line list [ll], at reference 5. *)
Definition heap_with_list (ll : LineList) : Heap :=
  mkHeap ∅ ∅ {[ 5%nat := ll ]} 6 [].

(** A five-pixel spectrum around Ly-alpha, with and without continuum. *)
Definition spec_conti : XSpectrum1D :=
  mkXSpectrum1D (wcs_length AA)
    [1214; 1215; 1216; 1217; 1218]%Q
    [2; 1; 1 # 2; 1; 2]%Q
    [1 # 10; 1 # 10; 1 # 10; 1 # 10; 1 # 10]%Q
    (Some [2; 2; 2; 2; 2]%Q) None.

Definition spec_noconti : XSpectrum1D :=
  mkXSpectrum1D (wcs_length AA)
    [1214; 1215; 1216; 1217; 1218]%Q
    [2; 1; 1 # 2; 1; 2]%Q
    [1 # 10; 1 # 10; 1 # 10; 1 # 10; 1 # 10]%Q
    None None.

Definition spec_unitless : XSpectrum1D :=
  mkXSpectrum1D dimensionless_unscaled
    [1214; 1215; 1216; 1217; 1218]%Q
    [2; 1; 1 # 2; 1; 2]%Q
    [1 # 10; 1 # 10; 1 # 10; 1 # 10; 1 # 10]%Q
    None None.

(** The sample spectrum with an uncertainty array that is one pixel
    short. *)
Definition spec_short_sig : XSpectrum1D :=
  mkXSpectrum1D (wcs_length AA)
    [1214; 1215; 1216; 1217; 1218]%Q
    [2; 1; 1 # 2; 1; 2]%Q
    [1 # 10; 1 # 10; 1 # 10]%Q
    None None.

End Sample.

(** ** Vocabulary of the statements *)

(** The line that [AbsLine(trans, ..., z=z)] makes from atomic data [d]. *)
Definition fresh_line (d : AtomicData) (z : Q) : AbsLine :=
  mkAbsLine "Abs" (data_wrest d) (data_name d) d
    (mkAnaly None [0%Q; 0%Q] [0%Q; 0%Q] 1 None 0 0 "" (data_name d))
    (mkAttrib (mkSkyCoord 0 0) z 0 0 0 0 0 0 None 0 0 0 0 0 None None None).

(** A spectrum with its [velo] attribute removed. *)
Definition erase_velo (s : XSpectrum1D) : XSpectrum1D :=
  mkXSpectrum1D (wcs_unit s) (dispersion s) (flux s) (sig s) (conti s) None.

(** A wavelength interval counts as set when one of its limits is
    positive, a velocity interval when one of its limits is not zero. *)
Definition wvlim_set (L : AbsLine) : bool :=
  existsb (fun x => Qlt_bool 0 x) (analy_wvlim (analy L)).
Definition vlim_set (L : AbsLine) : bool :=
  existsb (fun x => Qlt_bool 0 (Qabs x)) (analy_vlim (analy L)).

(** An interval is non-zero when one of its limits is not zero. *)
Definition nonzero (l : list Q) : Prop := Exists (fun x => ~ (x == 0)%Q) l.

(** Every index of [pix] is a pixel of an array of length [n]. *)
Definition in_range (n : nat) (pix : list nat) : Prop :=
  Forall (fun i => (i < n)%nat) pix.

Definition is_Ok {A} (r : result A) : Prop :=
  match r with Ok _ => True | Raise _ => False end.

(** ** Properties *)

Section Properties.
Context `{Collaborators}.

(** The pixels [cut_spec] selects: those of the wavelength interval when
    it is set, else those of the velocity interval when it is set. *)
Definition window_pix (L : AbsLine) (sp : XSpectrum1D) : option (list nat) :=
  if wvlim_set L then Some (pix_minmax_wv sp (analy_wvlim (analy L)))
  else if vlim_set L
  then Some (pix_minmax_vel sp (attr_z (attrib L)) (wrest L)
                            (analy_vlim (analy L)))
  else None.

(** The observed wavelength [wrest * (1 + z)] of a line. *)
Definition wv_obs (L : AbsLine) : Length :=
  mkLength (qvalue (wrest L) * (1 + attr_z (attrib L))) (qunit (wrest L)).

(** The store after a [cut_spec] that got past its checks and its
    slicing: the pixels are cached on the line, the velocity array is
    stored on the spectrum. *)
Definition heap_cut (h : Heap) (self : nat) (L : AbsLine) (r : nat)
    (sp : XSpectrum1D) (pix : list nat) : Heap :=
  mkHeap (<[self:=set_analy L (set_pix (analy L) pix)]> (lines h))
         (<[r:=set_velo sp (relative_vel sp (wv_obs L))]> (spectra h))
         (linelists h) (next_id h) (lookup_log h).

(** The normalisation step of [cut_spec] on the slices [fx] and [sg]. *)
Definition normalize_cut (normalize : bool) (sp : XSpectrum1D)
    (pix : list nat) (fx sg : list Q) : result (list Q * list Q) :=
  if normalize then
    match conti sp with
    | None => Ok (fx, sg)
    | Some c =>
        match np_take c pix with
        | Ok ct => Ok (np_div fx ct, np_div sg ct)
        | Raise e => Raise e
        end
    end
  else Ok (fx, sg).

(** The arrays of [sp] that [cut_spec] slices all have the pixels [pix]. *)
Definition aligned (L : AbsLine) (sp : XSpectrum1D) (normalize : bool)
    (pix : list nat) : Prop :=
  in_range (length (flux sp)) pix
  /\ in_range (length (sig sp)) pix
  /\ in_range (length (dispersion sp)) pix
  /\ in_range (length (relative_vel sp (wv_obs L))) pix
  /\ (normalize = true ->
      forall c, conti sp = Some c -> in_range (length c) pix).

(** The value [measure_ew] computes from the slices of [cut_spec]. *)
Definition ew_of (flg : Z) (initial_guesses : option (Q * Q * Q))
    (L : AbsLine) (wv fx sg : list Q) : result (Q * Q) :=
  if Z.eqb flg 1 then Ok (box_ew wv fx sg)
  else if Z.eqb flg 2 then Ok (gaussian_ew wv fx sg (ltype L) initial_guesses)
  else Raise (ValueError ("measure_ew: Not ready for this flag "
                          ++ format_d flg)).

(** *** Equivalent widths *)

Definition with_lines (h : Heap) (m : gmap nat AbsLine) : Heap :=
  mkHeap m (spectra h) (linelists h) (next_id h) (lookup_log h).

(** The flag [measure_aodm] stores in [attrib['flagN']]. *)
Definition flagN_of (nsig N sigN : Q) (flg_sat : bool) : Z :=
  if flg_sat then 2 else if Qlt_bool (nsig * sigN) N then 1 else 3.

(** [attrib] after the writes of [flagN], [N] and [sigN]. *)
Definition aodm_values (a : Attrib) (nsig : Q) (r : Q * Q * bool) : Attrib :=
  set_N (set_flagN a (flagN_of nsig r.1.1 r.1.2 r.2)) r.1.1 r.1.2.

(** What [ismatch] compares [self] with: the rest wavelength and the
    redshift of [inp], the ion given by [Zion] or else by the line [inp],
    and the position given by [RADec] or else by the line [inp]. *)
Definition match_input (h : Heap) (inp : MatchInp) (Zion : option (Z * Z))
    (RADec : option (Q * Q))
    : option (Length * Q * option (Z * Z) * option SkyCoord) :=
  match inp with
  | InpLine other =>
      match lines h !! other with
      | Some Lo =>
          Some (wrest Lo, attr_z (attrib Lo),
                Some (default (data_Z (data Lo), data_ion (data Lo)) Zion),
                Some (match RADec with
                      | Some (ra_, dec_) => mkSkyCoord ra_ dec_
                      | None => attr_coord (attrib Lo)
                      end))
      | None => None
      end
  | InpTuple z w =>
      Some (w, z, Zion,
            match RADec with
            | Some (ra_, dec_) => Some (mkSkyCoord ra_ dec_)
            | None => None
            end)
  | InpOther => None
  end.

(** Every entry of [adict] is a line of the store, made by the
    constructor from the atomic data of a wavelength of [U] that equals the
    key. *)
Definition good_adict (ll0 : LineList) (u : LengthUnit) (U : list Q)
    (adict : list (Q * nat)) (h : Heap) : Prop :=
  forall k ref,
    dict_get adict k = Some ref ->
    (ref < next_id h)%nat
    /\ exists v d,
         In v U /\ (v == k)%Q
         /\ LineList_getitem ll0 (TQuantity (mkLength v u)) = Ok d
         /\ lines h !! ref = Some (fresh_line d 0).

(** The spectrum's collaborators read its arrays, not its [velo]
    attribute. *)
Definition velo_blind : Prop :=
  (forall sp v wvlim,
     pix_minmax_wv (set_velo sp v) wvlim = pix_minmax_wv sp wvlim)
  /\ (forall sp v z w vlim,
        pix_minmax_vel (set_velo sp v) z w vlim = pix_minmax_vel sp z w vlim)
  /\ (forall sp v w, relative_vel (set_velo sp v) w = relative_vel sp w).

(** *** Numbers *)

Lemma Qlt_bool_iff (x y : Q) : Qlt_bool x y = true <-> (x < y)%Q.
Proof.
  unfold Qlt_bool. rewrite negb_true_iff.
  split.
  - intros Hb. apply Qnot_le_lt. intros Hle.
    apply Qle_bool_iff in Hle. congruence.
  - intros Hlt. destruct (Qle_bool y x) eqn:E; [|reflexivity].
    apply Qle_bool_iff in E. exfalso. exact (Qlt_not_le _ _ Hlt E).
Qed.

(** *** The monad *)

Lemma bind_Ok {A B} (m : M A) (k : A -> M B) h a h' :
  m h = (Ok a, h') -> bind m k h = k a h'.
Proof. intros E. unfold bind. rewrite E. reflexivity. Qed.

Lemma bind_Raise {A B} (m : M A) (k : A -> M B) h e h' :
  m h = (Raise e, h') -> bind m k h = (Raise e, h').
Proof. intros E. unfold bind. rewrite E. reflexivity. Qed.

Lemma get_line_Some h r L : lines h !! r = Some L -> get_line r h = (Ok L, h).
Proof. intros E. unfold get_line. rewrite E. reflexivity. Qed.

Lemma get_spec_Some h r s : spectra h !! r = Some s -> get_spec r h = (Ok s, h).
Proof. intros E. unfold get_spec. rewrite E. reflexivity. Qed.

Lemma get_linelist_Some h r l :
  linelists h !! r = Some l -> get_linelist r h = (Ok l, h).
Proof. intros E. unfold get_linelist. rewrite E. reflexivity. Qed.

(** *** Arrays *)

Lemma truthy_np_sum (f : Q -> bool) (l : list Q) :
  truthy (np_sum (map f l)) = existsb f l.
Proof.
  unfold truthy, np_sum. induction l as [|x l IH]; [reflexivity|].
  cbn [map existsb]. rewrite filter_cons.
  destruct (decide (f x = true)) as [E|E].
  - rewrite E. reflexivity.
  - destruct (f x); [congruence|]. exact IH.
Qed.

Lemma np_take_in_range (arr : list Q) (pix : list nat) :
  in_range (length arr) pix ->
  exists xs, np_take arr pix = Ok xs /\ length xs = length pix.
Proof.
  unfold in_range. induction 1 as [|i pix Hi _ IH].
  - exists []. split; reflexivity.
  - destruct IH as (xs & E & Hl).
    destruct (lookup_lt_is_Some_2 arr i Hi) as [x Hx].
    exists (x :: xs). cbn. rewrite Hx, E. split; [reflexivity|].
    cbn. congruence.
Qed.

Lemma np_take_Ok_in_range (arr : list Q) (pix : list nat) xs :
  np_take arr pix = Ok xs -> in_range (length arr) pix.
Proof.
  unfold in_range. revert xs. induction pix as [|i pix IH]; intros xs E.
  - constructor.
  - cbn in E. destruct (arr !! i) as [x|] eqn:Hx; [|discriminate].
    destruct (np_take arr pix) as [ys|] eqn:E'; [|discriminate].
    constructor; [|eapply IH; reflexivity].
    eapply lookup_lt_Some; eassumption.
Qed.

(** *** [cut_spec] *)

Ltac run_cut :=
  unfold cut_spec, bind, ret, raise, lift, get_line, get_spec, put_line,
    put_spec; cbn.

Ltac run_cut_in E :=
  unfold cut_spec, bind, ret, raise, lift, get_line, get_spec, put_line,
    put_spec in E; cbn in E.

Lemma cut_spec_linelists self n h :
  linelists (snd (cut_spec self n h)) = linelists h
  /\ next_id (snd (cut_spec self n h)) = next_id h
  /\ lookup_log (snd (cut_spec self n h)) = lookup_log h.
Proof. run_cut. repeat case_match; simplify_eq/=; done. Qed.

Lemma erase_velo_insert (m : gmap nat XSpectrum1D) r sp v :
  m !! r = Some sp ->
  erase_velo <$> <[r:=set_velo sp v]> m = erase_velo <$> m.
Proof.
  intros E. rewrite fmap_insert. apply insert_id.
  rewrite lookup_fmap, E. reflexivity.
Qed.

Lemma cut_spec_spectra self n h :
  erase_velo <$> spectra (snd (cut_spec self n h)) = erase_velo <$> spectra h.
Proof.
  run_cut.
  repeat case_match; simplify_eq/=; try done; by apply erase_velo_insert.
Qed.

Lemma attrib_insert (m : gmap nat AbsLine) r L a :
  m !! r = Some L ->
  attrib <$> <[r:=set_analy L a]> m = attrib <$> m.
Proof.
  intros E. rewrite fmap_insert. apply insert_id.
  rewrite lookup_fmap, E. reflexivity.
Qed.

Lemma cut_spec_attrib self n h :
  attrib <$> lines (snd (cut_spec self n h)) = attrib <$> lines h.
Proof.
  run_cut.
  repeat case_match; simplify_eq/=; try done; by apply attrib_insert.
Qed.

Lemma cut_spec_no_spectrum self n h L :
  lines h !! self = Some L -> analy_spec (analy L) = None ->
  cut_spec self n h
  = (Raise (ValueError "spectralline.cut_spec: Need to set spectrum!"), h).
Proof. intros E1 E2. run_cut. rewrite E1. cbn. rewrite E2. reflexivity. Qed.

Lemma cut_spec_unitless self n h L r sp :
  lines h !! self = Some L -> analy_spec (analy L) = Some r ->
  spectra h !! r = Some sp -> wcs_unit_is_one (wcs_unit sp) = true ->
  cut_spec self n h = (Raise (ValueError "Expecting a unit!"), h).
Proof.
  intros E1 E2 E3 E4. run_cut. rewrite E1. cbn. rewrite E2, E3. cbn.
  rewrite E4. reflexivity.
Qed.

Lemma cut_spec_no_window self n h L r sp :
  lines h !! self = Some L -> analy_spec (analy L) = Some r ->
  spectra h !! r = Some sp -> wcs_unit_is_one (wcs_unit sp) = false ->
  window_pix L sp = None ->
  cut_spec self n h
  = (Raise (ValueError "spectralline.cut_spec: Need to set wvlim or vlim!"), h).
Proof.
  intros E1 E2 E3 E4 E5. unfold window_pix, wvlim_set, vlim_set in E5.
  run_cut. rewrite E1. cbn. rewrite E2, E3. cbn. rewrite E4.
  rewrite !truthy_np_sum.
  destruct (existsb _ (analy_wvlim _)); [discriminate|].
  destruct (existsb _ (analy_vlim _)); [discriminate|]. reflexivity.
Qed.

(** Past its checks, [cut_spec] caches the pixels, slices the arrays,
    stores the velocity array, and normalises. *)
Lemma cut_spec_past_checks self n h L r sp pix :
  lines h !! self = Some L -> analy_spec (analy L) = Some r ->
  spectra h !! r = Some sp -> wcs_unit_is_one (wcs_unit sp) = false ->
  window_pix L sp = Some pix ->
  cut_spec self n h
  = let h1 := mkHeap (<[self:=set_analy L (set_pix (analy L) pix)]> (lines h))
                     (spectra h) (linelists h) (next_id h) (lookup_log h) in
    match np_take (flux sp) pix with
    | Raise e => (Raise e, h1)
    | Ok fx =>
        match np_take (sig sp) pix with
        | Raise e => (Raise e, h1)
        | Ok sg =>
            match np_take (dispersion sp) pix with
            | Raise e => (Raise e, h1)
            | Ok wave =>
                match np_take (relative_vel sp (wv_obs L)) pix with
                | Raise e => (Raise e, heap_cut h self L r sp pix)
                | Ok velo_ =>
                    (match normalize_cut n sp pix fx sg with
                     | Ok (fx', sg') => Ok (fx', sg', (wave, velo_))
                     | Raise e => Raise e
                     end, heap_cut h self L r sp pix)
                end
            end
        end
    end.
Proof.
  intros E1 E2 E3 E4 E5.
  assert (Hpix :
    (if truthy (np_sum (map (fun x => Qlt_bool 0 x) (analy_wvlim (analy L))))
     then ret (pix_minmax_wv sp (analy_wvlim (analy L)))
     else if truthy (np_sum (map (fun x => Qlt_bool 0 (Qabs x))
                                 (analy_vlim (analy L))))
     then ret (pix_minmax_vel sp (attr_z (attrib L)) (wrest L)
                              (analy_vlim (analy L)))
     else raise (ValueError
            "spectralline.cut_spec: Need to set wvlim or vlim!")) h
    = (Ok pix, h)).
  { unfold window_pix, wvlim_set, vlim_set in E5. rewrite !truthy_np_sum.
    destruct (existsb _ (analy_wvlim _)); simplify_eq/=; [reflexivity|].
    destruct (existsb _ (analy_vlim _)); simplify_eq/=. reflexivity. }
  unfold cut_spec.
  rewrite (bind_Ok _ _ _ _ _ (get_line_Some _ _ _ E1)). rewrite E2.
  rewrite (bind_Ok _ _ _ _ _ (get_spec_Some _ _ _ E3)). rewrite E4.
  rewrite (bind_Ok _ _ _ _ _ Hpix).
  unfold heap_cut, normalize_cut, wv_obs.
  unfold bind, put_line, put_spec, lift, ret. cbn.
  destruct (np_take (flux sp) pix) as [fx|]; [|reflexivity].
  destruct (np_take (sig sp) pix) as [sg|]; [|reflexivity].
  destruct (np_take (dispersion sp) pix) as [wave|]; [|reflexivity].
  cbn. destruct (np_take (relative_vel sp _) pix) as [velo_|]; [|reflexivity].
  destruct n; [|reflexivity]. destruct (conti sp) as [c|]; [|reflexivity].
  cbn. destruct (np_take c pix); reflexivity.
Qed.

Lemma cut_spec_window self n h L r sp pix fx sg wave velo_ :
  lines h !! self = Some L -> analy_spec (analy L) = Some r ->
  spectra h !! r = Some sp -> wcs_unit_is_one (wcs_unit sp) = false ->
  window_pix L sp = Some pix ->
  np_take (flux sp) pix = Ok fx -> np_take (sig sp) pix = Ok sg ->
  np_take (dispersion sp) pix = Ok wave ->
  np_take (relative_vel sp (wv_obs L)) pix = Ok velo_ ->
  cut_spec self n h
  = (match normalize_cut n sp pix fx sg with
     | Ok (fx', sg') => Ok (fx', sg', (wave, velo_))
     | Raise e => Raise e
     end, heap_cut h self L r sp pix).
Proof.
  intros E1 E2 E3 E4 E5 E6 E7 E8 E9.
  rewrite (cut_spec_past_checks _ n _ _ _ _ _ E1 E2 E3 E4 E5).
  cbv zeta. rewrite E6, E7, E8, E9. reflexivity.
Qed.

(** What a successful [cut_spec] has done. *)
Lemma cut_spec_Ok_inv self n h out h' :
  cut_spec self n h = (Ok out, h') ->
  exists L r sp pix fx sg wave velo_ fx' sg',
    lines h !! self = Some L /\ analy_spec (analy L) = Some r
    /\ spectra h !! r = Some sp /\ wcs_unit_is_one (wcs_unit sp) = false
    /\ window_pix L sp = Some pix
    /\ np_take (flux sp) pix = Ok fx /\ np_take (sig sp) pix = Ok sg
    /\ np_take (dispersion sp) pix = Ok wave
    /\ np_take (relative_vel sp (wv_obs L)) pix = Ok velo_
    /\ normalize_cut n sp pix fx sg = Ok (fx', sg')
    /\ out = (fx', sg', (wave, velo_))
    /\ h' = heap_cut h self L r sp pix.
Proof.
  intros E.
  destruct (lines h !! self) as [L|] eqn:E1;
    [|run_cut_in E; rewrite E1 in E; discriminate].
  destruct (analy_spec (analy L)) as [r|] eqn:E2;
    [|rewrite (cut_spec_no_spectrum _ _ _ _ E1 E2) in E; discriminate].
  destruct (spectra h !! r) as [sp|] eqn:E3;
    [|run_cut_in E; rewrite E1 in E; cbn in E; rewrite E2, E3 in E;
      discriminate].
  destruct (wcs_unit_is_one (wcs_unit sp)) eqn:E4;
    [rewrite (cut_spec_unitless _ _ _ _ _ _ E1 E2 E3 E4) in E; discriminate|].
  destruct (window_pix L sp) as [pix|] eqn:E5;
    [|rewrite (cut_spec_no_window _ _ _ _ _ _ E1 E2 E3 E4 E5) in E;
      discriminate].
  rewrite (cut_spec_past_checks _ n _ _ _ _ _ E1 E2 E3 E4 E5) in E.
  cbv zeta in E.
  destruct (np_take (flux sp) pix) as [fx|] eqn:E6; [|discriminate].
  destruct (np_take (sig sp) pix) as [sg|] eqn:E7; [|discriminate].
  destruct (np_take (dispersion sp) pix) as [wave|] eqn:E8; [|discriminate].
  destruct (np_take (relative_vel sp (wv_obs L)) pix) as [velo_|] eqn:E9;
    [|discriminate].
  destruct (normalize_cut n sp pix fx sg) as [[fx' sg']|] eqn:E10;
    [|discriminate].
  simplify_eq. by exists L, r, sp, pix, fx, sg, wave, velo_, fx', sg'.
Qed.

(** *** The analysis windows *)

Lemma Qabs_pos_iff (x : Q) : (0 < Qabs x)%Q <-> ~ (x == 0)%Q.
Proof.
  split.
  - intros Hlt Hx. rewrite Hx in Hlt. cbn in Hlt.
    exact (Qlt_irrefl _ Hlt).
  - intros Hx. destruct (Qlt_le_dec 0 (Qabs x)) as [Hlt|Hle]; [exact Hlt|].
    exfalso. apply Hx.
    assert (E : (Qabs x == 0)%Q)
      by (apply Qle_antisym; [exact Hle | apply Qabs_nonneg]).
    revert E. apply Qabs_case; intros _ E; [exact E|].
    rewrite <- (Qopp_involutive x), E. reflexivity.
Qed.

Lemma wvlim_set_iff (L : AbsLine) :
  wvlim_set L = true <-> Exists (fun x => (0 < x)%Q) (analy_wvlim (analy L)).
Proof.
  unfold wvlim_set. rewrite existsb_exists, Exists_exists.
  split; intros (x & Hin & Hx); exists x;
    (split; [by apply list_elem_of_In|]); by apply Qlt_bool_iff.
Qed.

Lemma vlim_set_iff (L : AbsLine) :
  vlim_set L = true <-> nonzero (analy_vlim (analy L)).
Proof.
  unfold vlim_set, nonzero. rewrite existsb_exists, Exists_exists.
  split; intros (x & Hin & Hx); exists x;
    (split; [by apply list_elem_of_In|]).
  - by apply Qabs_pos_iff, Qlt_bool_iff.
  - by apply Qlt_bool_iff, Qabs_pos_iff.
Qed.

Lemma window_pix_None (L : AbsLine) (sp : XSpectrum1D) :
  window_pix L sp = None
  <-> ~ Exists (fun x => (0 < x)%Q) (analy_wvlim (analy L))
      /\ ~ nonzero (analy_vlim (analy L)).
Proof.
  rewrite <- wvlim_set_iff, <- vlim_set_iff. unfold window_pix.
  destruct (wvlim_set L), (vlim_set L); split; try done; intros []; done.
Qed.

Lemma wcs_unit_is_one_iff (u : WcsUnit) :
  wcs_unit_is_one u = true <-> u = dimensionless_unscaled.
Proof. destruct u; split; done. Qed.

Lemma cut_spec_aligned self n h L r sp pix :
  lines h !! self = Some L -> analy_spec (analy L) = Some r ->
  spectra h !! r = Some sp -> wcs_unit_is_one (wcs_unit sp) = false ->
  window_pix L sp = Some pix -> aligned L sp n pix ->
  exists out, cut_spec self n h = (Ok out, heap_cut h self L r sp pix).
Proof.
  intros E1 E2 E3 E4 E5 (A1 & A2 & A3 & A4 & A5).
  destruct (np_take_in_range _ _ A1) as (fx & E6 & _).
  destruct (np_take_in_range _ _ A2) as (sg & E7 & _).
  destruct (np_take_in_range _ _ A3) as (wave & E8 & _).
  destruct (np_take_in_range _ _ A4) as (velo_ & E9 & _).
  rewrite (cut_spec_window _ n _ _ _ _ _ _ _ _ _ E1 E2 E3 E4 E5 E6 E7 E8 E9).
  unfold normalize_cut. destruct n; [|by eexists].
  destruct (conti sp) as [c|] eqn:Ec; [|by eexists].
  destruct (np_take_in_range _ _ (A5 eq_refl c eq_refl)) as (ct & E10 & _).
  rewrite E10. by eexists.
Qed.

Lemma np_take_Raise (arr : list Q) (pix : list nat) e :
  np_take arr pix = Raise e -> e = IndexError.
Proof.
  induction pix as [|i pix IH]; cbn; [intros; simplify_eq|].
  destruct (arr !! i); [|congruence].
  destruct (np_take arr pix); intros E; simplify_eq. by apply IH.
Qed.

Lemma cut_spec_past_checks_Raise self n h L r sp pix e :
  lines h !! self = Some L -> analy_spec (analy L) = Some r ->
  spectra h !! r = Some sp -> wcs_unit_is_one (wcs_unit sp) = false ->
  window_pix L sp = Some pix ->
  fst (cut_spec self n h) = Raise e -> e = IndexError.
Proof.
  intros E1 E2 E3 E4 E5.
  rewrite (cut_spec_past_checks _ n _ _ _ _ _ E1 E2 E3 E4 E5).
  cbv zeta. unfold normalize_cut.
  destruct (np_take (flux sp) pix) eqn:E6;
    [|cbn; intros; simplify_eq; eauto using np_take_Raise].
  destruct (np_take (sig sp) pix) eqn:E7;
    [|cbn; intros; simplify_eq; eauto using np_take_Raise].
  destruct (np_take (dispersion sp) pix) eqn:E8;
    [|cbn; intros; simplify_eq; eauto using np_take_Raise].
  destruct (np_take (relative_vel sp (wv_obs L)) pix) eqn:E9;
    [|cbn; intros; simplify_eq; eauto using np_take_Raise].
  destruct n; [|cbn; intros; simplify_eq].
  destruct (conti sp) as [c|]; [|cbn; intros; simplify_eq].
  destruct (np_take c pix) eqn:E10; cbn; intros; simplify_eq.
  eauto using np_take_Raise.
Qed.

Lemma window_pix_Some (L : AbsLine) (sp : XSpectrum1D) pix :
  window_pix L sp = Some pix ->
  (Exists (fun x => (0 < x)%Q) (analy_wvlim (analy L)) ->
   pix = pix_minmax_wv sp (analy_wvlim (analy L)))
  /\ (~ Exists (fun x => (0 < x)%Q) (analy_wvlim (analy L)) ->
      pix = pix_minmax_vel sp (attr_z (attrib L)) (wrest L)
                           (analy_vlim (analy L))).
Proof.
  rewrite <- wvlim_set_iff. unfold window_pix.
  destruct (wvlim_set L); [intros; simplify_eq; split; done|].
  destruct (vlim_set L); [|discriminate].
  intros; simplify_eq; split; done.
Qed.

(** C4 (as amended).  [cut_spec] checks its preconditions in this order:
    it raises the need-a-spectrum error exactly when [analy['spec']] is
    unset; else the expecting-a-unit error exactly when the dispersion
    axis has no unit; else the need-a-window error exactly when no
    wavelength limit is positive and no velocity limit is non-zero.
    Otherwise the pixels are those of the wavelength interval when one of
    its limits is positive, and those of the velocity interval when not;
    and when the arrays of the spectrum have these pixels the call
    succeeds and caches them in [analy['pix']]. *)
Theorem cut_spec_preconditions self n h L :
  lines h !! self = Some L ->
  (forall r, analy_spec (analy L) = Some r -> is_Some (spectra h !! r)) ->
  let res := fst (cut_spec self n h) in
  let wv_is_set := Exists (fun x => (0 < x)%Q) (analy_wvlim (analy L)) in
  let v_is_set := nonzero (analy_vlim (analy L)) in
  (res = Raise (ValueError "spectralline.cut_spec: Need to set spectrum!")
   <-> analy_spec (analy L) = None)
  /\ (res = Raise (ValueError "Expecting a unit!")
      <-> exists r sp, analy_spec (analy L) = Some r
                       /\ spectra h !! r = Some sp
                       /\ wcs_unit sp = dimensionless_unscaled)
  /\ (res = Raise (ValueError
                     "spectralline.cut_spec: Need to set wvlim or vlim!")
      <-> exists r sp, analy_spec (analy L) = Some r
                       /\ spectra h !! r = Some sp
                       /\ wcs_unit sp <> dimensionless_unscaled
                       /\ ~ wv_is_set /\ ~ v_is_set)
  /\ (forall r sp,
        analy_spec (analy L) = Some r -> spectra h !! r = Some sp ->
        wcs_unit sp <> dimensionless_unscaled -> wv_is_set \/ v_is_set ->
        exists pix,
          (wv_is_set -> pix = pix_minmax_wv sp (analy_wvlim (analy L)))
          /\ (~ wv_is_set ->
              pix = pix_minmax_vel sp (attr_z (attrib L)) (wrest L)
                                   (analy_vlim (analy L)))
          /\ (aligned L sp n pix ->
              exists out h' L',
                cut_spec self n h = (Ok out, h')
                /\ lines h' !! self = Some L'
                /\ analy_pix (analy L') = Some pix)).
Proof.
  intros E1 Hwf. cbv zeta.
  destruct (analy_spec (analy L)) as [r|] eqn:E2; cycle 1.
  { rewrite (cut_spec_no_spectrum _ n _ _ E1 E2). cbn.
    (split; [|split; [|split]]); try done.
    - split; [intros; discriminate | intros (? & ? & ? & _); discriminate].
    - split; [intros; discriminate | intros (? & ? & ? & _); discriminate]. }
  destruct (Hwf r eq_refl) as [sp E3].
  destruct (wcs_unit_is_one (wcs_unit sp)) eqn:E4.
  { rewrite (cut_spec_unitless _ n _ _ _ _ E1 E2 E3 E4). cbn.
    apply wcs_unit_is_one_iff in E4.
    (split; [|split; [|split]]).
    - split; intros; discriminate.
    - split; [intros _ | done]. by exists r, sp.
    - split; [intros; discriminate|].
      intros (r' & sp' & ? & E3' & Hu & _). simplify_eq; done.
    - intros r' sp' ? E3' Hu. simplify_eq; done. }
  assert (Hu : wcs_unit sp <> dimensionless_unscaled).
  { intros Hu. apply wcs_unit_is_one_iff in Hu. congruence. }
  destruct (window_pix L sp) as [pix|] eqn:E5; cycle 1.
  { rewrite (cut_spec_no_window _ n _ _ _ _ E1 E2 E3 E4 E5). cbn.
    apply window_pix_None in E5. destruct E5 as [Hw Hv].
    (split; [|split; [|split]]).
    - split; intros; discriminate.
    - split; [intros; discriminate|].
      intros (r' & sp' & ? & E3' & Hu'). simplify_eq; done.
    - split; [intros _; exists r, sp; done | done].
    - intros r' sp' _ _ _ [?|?]; done. }
  pose proof (fun e => cut_spec_past_checks_Raise _ n _ _ _ _ _ e
                         E1 E2 E3 E4 E5) as Hres.
  (split; [|split; [|split]]).
  - split; [intros E; apply Hres in E; discriminate | done].
  - split; [intros E; apply Hres in E; discriminate|].
    intros (r' & sp' & ? & E3' & Hu'). simplify_eq; done.
  - split; [intros E; apply Hres in E; discriminate|].
    intros (_ & _ & _ & _ & _ & Hw & Hv).
    assert (window_pix L sp = None) by (by apply window_pix_None).
    congruence.
  - intros r' sp' ? E3' _ _. simplify_eq.
    destruct (window_pix_Some _ _ _ E5) as [Hw Hv].
    exists pix. split; [exact Hw|]. split; [exact Hv|].
    intros Hal.
    destruct (cut_spec_aligned _ _ _ _ _ _ _ E1 E2 E3 E4 E5 Hal) as [out E].
    exists out; eexists _, _.
    split; [exact E|]. split; [apply lookup_insert_eq | reflexivity].
Qed.

Lemma with_lines_id h : with_lines h (lines h) = h.
Proof. by destruct h. Qed.

(** [measure_ew] is [cut_spec], the estimator, and two writes to
    [attrib]. *)
Lemma measure_ew_unfold self flg ig h :
  measure_ew self flg ig h
  = match cut_spec self true h with
    | (Raise e, h0) => (Raise e, h0)
    | (Ok (fx, sg, (wv, _)), h0) =>
        match lines h0 !! self with
        | None => (Raise ReferenceError, h0)
        | Some L0 =>
            match ew_of flg ig L0 wv fx sg with
            | Raise e => (Raise e, h0)
            | Ok ew =>
                (Ok tt,
                 with_lines h0
                   (<[self:=set_attrib L0
                              (set_attr_sigEW (set_attr_EW (attrib L0) (fst ew))
                                              (snd ew))]> (lines h0)))
            end
        end
    end.
Proof.
  unfold measure_ew, bind.
  destruct (cut_spec self true h) as [[[[fx sg] [wv ve]]|e] h0]; [|done].
  unfold get_line. destruct (lines h0 !! self) as [L0|]; [|done].
  unfold ew_of, ret, raise, put_line, with_lines.
  destruct (Z.eqb flg 1); [done|]. destruct (Z.eqb flg 2); done.
Qed.

Lemma measure_restew_unfold self flg ig h :
  measure_restew self flg ig h
  = match measure_ew self flg ig h with
    | (Raise e, h1) => (Raise e, h1)
    | (Ok _, h1) =>
        match lines h1 !! self with
        | None => (Raise ReferenceError, h1)
        | Some L1 =>
            let a1 := set_attr_EW (attrib L1)
                        (attr_EW (attrib L1) / (attr_z (attrib L1) + 1))%Q in
            match attr_sigEW (attrib L1) with
            | None =>
                (Raise (KeyError "sigEW"),
                 with_lines h1 (<[self:=set_attrib L1 a1]> (lines h1)))
            | Some s =>
                (Ok tt,
                 with_lines h1
                   (<[self:=set_attrib L1
                              (set_attr_sigEW a1
                                 (s / (attr_z (attrib L1) + 1))%Q)]>
                      (lines h1)))
            end
        end
    end.
Proof.
  unfold measure_restew, bind.
  destruct (measure_ew self flg ig h) as [[[]|e] h1]; [|done].
  unfold get_line. destruct (lines h1 !! self) as [L1|]; [|done].
  unfold put_line, raise, with_lines. cbn.
  destruct (attr_sigEW (attrib L1)); cbn; [|done].
  by rewrite insert_insert_eq.
Qed.

Lemma Qplus_comm_eq (x y : Q) : (x + y)%Q = (y + x)%Q.
Proof.
  unfold Qplus. f_equal; [apply Z.add_comm | apply Pos.mul_comm].
Qed.

Lemma Qdiv_0_plus_1 (x : Q) : (x / (0 + 1))%Q = x.
Proof.
  destruct x as [n d]. unfold Qdiv, Qmult. cbn.
  by rewrite Z.mul_1_r, Pos.mul_1_r.
Qed.

Lemma cut_spec_line self n h out h0 :
  cut_spec self n h = (Ok out, h0) ->
  exists L L0, lines h !! self = Some L /\ lines h0 !! self = Some L0
               /\ attrib L0 = attrib L /\ ltype L0 = ltype L
               /\ wrest L0 = wrest L /\ data L0 = data L.
Proof.
  intros E. apply cut_spec_Ok_inv in E.
  destruct E as (L & r & sp & pix & fx & sg & wave & velo_ & fx' & sg' & E1
                 & _ & _ & _ & _ & _ & _ & _ & _ & _ & _ & ->).
  exists L, (set_analy L (set_pix (analy L) pix)).
  split; [exact E1|]. split; [apply lookup_insert_eq|done].
Qed.

(** C1.  When [measure_ew] raises, [measure_restew] raises the same
    exception and leaves the same store.  When [measure_ew] succeeds, so
    does [measure_restew] on the same line, spectrum and arguments, and it
    leaves in [attrib['EW']] and [attrib['sigEW']] the values [measure_ew]
    leaves there, each divided by [1 + z] for the redshift [z] stored on
    the line; at [z = 0] the two calls leave the same store. *)
Theorem measure_restew_rest_frame self flg ig h res h1 :
  measure_ew self flg ig h = (res, h1) ->
  match res with
  | Raise e => measure_restew self flg ig h = (Raise e, h1)
  | Ok _ =>
      exists L L1 s h2 L2,
        lines h !! self = Some L /\ lines h1 !! self = Some L1
        /\ attr_sigEW (attrib L1) = Some s
        /\ measure_restew self flg ig h = (Ok tt, h2)
        /\ lines h2 !! self = Some L2
        /\ attr_EW (attrib L2)
           = (attr_EW (attrib L1) / (1 + attr_z (attrib L)))%Q
        /\ attr_sigEW (attrib L2) = Some (s / (1 + attr_z (attrib L)))%Q
        /\ (attr_z (attrib L) = 0%Q -> h2 = h1)
  end.
Proof.
  intros E. rewrite measure_restew_unfold, E.
  destruct res as [[]|e]; [|reflexivity].
  rewrite measure_ew_unfold in E.
  destruct (cut_spec self true h) as [[[[fx sg] [wv ve]]|e] h0] eqn:Ec;
    [|discriminate].
  destruct (cut_spec_line _ _ _ _ _ Ec) as (L & L0 & E1 & E0 & Ha & _).
  rewrite E0 in E.
  destruct (ew_of flg ig L0 wv fx sg) as [ew|]; [|discriminate].
  injection E as <-.
  set (L1 := set_attrib L0 _).
  assert (El1 : lines (with_lines h0 (<[self:=L1]> (lines h0))) !! self
                = Some L1) by apply lookup_insert_eq.
  rewrite El1. cbn.
  assert (Ez : attr_z (attrib L0) = attr_z (attrib L)) by (by rewrite Ha).
  exists L, L1, (snd ew). eexists _, _.
  split; [exact E1|]. split; [reflexivity|]. split; [reflexivity|].
  split; [reflexivity|]. split; [apply lookup_insert_eq|].
  cbn. rewrite Ez, (Qplus_comm_eq (attr_z (attrib L)) 1).
  split; [reflexivity|]. split; [reflexivity|].
  intros Hz. rewrite Hz, !Qdiv_0_plus_1.
  unfold with_lines. cbn. f_equal.
  rewrite insert_insert_eq. reflexivity.
Qed.

(** *** Column densities *)

Lemma measure_aodm_unfold self nsig h :
  measure_aodm self nsig h
  = match cut_spec self true h with
    | (Raise e, h0) => (Raise e, h0)
    | (Ok (fx, sg, (_, velo_)), h0) =>
        match lines h0 !! self with
        | None => (Raise ReferenceError, h0)
        | Some L0 =>
            let a2 := aodm_values (attrib L0) nsig
                        (aodm velo_ fx sg (wrest L0) (data_f (data L0))) in
            (Ok tt,
             with_lines h0
               (<[self:=set_attrib L0
                          (set_logN a2 (log_clm a2).1 (log_clm a2).2)]>
                  (lines h0)))
        end
    end.
Proof.
  unfold measure_aodm, bind.
  destruct (cut_spec self true h) as [[[[fx sg] [wv ve]]|e] h0]; [|done].
  unfold get_line. destruct (lines h0 !! self) as [L0|]; [|done].
  unfold aodm_values, flagN_of.
  destruct (aodm ve fx sg (wrest L0) (data_f (data L0))) as [[N sigN] sat].
  cbn. destruct (log_clm _) as [logN sig_logN]. reflexivity.
Qed.

(** C2.  [measure_aodm] raises what [cut_spec(normalize=True)] raises.
    When [cut_spec] returns the window [(fx, sig, velo)], the call
    succeeds; with [(N, sigN, flg_sat)] the result of [aodm] on that
    window, it leaves [flagN = 2] when [flg_sat] holds, whatever [nsig]
    is, else [flagN = 1] when [N > nsig * sigN], else [flagN = 3]; it
    leaves [N] and [sigN] in [attrib['N']] and [attrib['sigN']], and in
    [attrib['logN']] and [attrib['sig_logN']] the result of [log_clm] on
    the attributes so written. *)
Theorem measure_aodm_flags self nsig h res h0 :
  cut_spec self true h = (res, h0) ->
  match res with
  | Raise e => measure_aodm self nsig h = (Raise e, h0)
  | Ok (fx, sg, (_, velo_)) =>
      exists L0 L1 h1,
        lines h0 !! self = Some L0
        /\ measure_aodm self nsig h = (Ok tt, h1)
        /\ lines h1 !! self = Some L1
        /\ exists N sigN flg_sat,
             aodm velo_ fx sg (wrest L0) (data_f (data L0))
             = (N, sigN, flg_sat)
             /\ (flg_sat = true -> attr_flagN (attrib L1) = 2%Z)
             /\ (flg_sat = false -> (nsig * sigN < N)%Q ->
                 attr_flagN (attrib L1) = 1%Z)
             /\ (flg_sat = false -> ~ (nsig * sigN < N)%Q ->
                 attr_flagN (attrib L1) = 3%Z)
             /\ attr_N (attrib L1) = N
             /\ attr_sigN (attrib L1) = Some sigN
             /\ exists a2,
                  a2 = set_N (set_flagN (attrib L0) (attr_flagN (attrib L1)))
                             N sigN
                  /\ attr_logN (attrib L1) = Some (log_clm a2).1
                  /\ attr_sig_logN (attrib L1) = Some (log_clm a2).2
                  /\ attrib L1 = set_logN a2 (log_clm a2).1 (log_clm a2).2
  end.
Proof.
  intros E. rewrite measure_aodm_unfold, E.
  destruct res as [[[fx sg] [wv ve]]|e]; [|reflexivity].
  destruct (cut_spec_line _ _ _ _ _ E) as (L & L0 & E1 & E0 & _).
  rewrite E0. cbv zeta.
  destruct (aodm ve fx sg (wrest L0) (data_f (data L0)))
    as [[N sigN] sat] eqn:Ea.
  eexists L0, _, _. split; [reflexivity|]. split; [reflexivity|].
  split; [apply lookup_insert_eq|].
  exists N, sigN, sat. split; [exact Ea|].
  unfold aodm_values, flagN_of. cbn.
  split; [by intros ->|].
  split.
  { intros -> Hlt. apply Qlt_bool_iff in Hlt. by rewrite Hlt. }
  split.
  { intros -> Hlt. destruct (Qlt_bool (nsig * sigN) N) eqn:Eb; [|done].
    by apply Qlt_bool_iff in Eb. }
  split; [reflexivity|]. split; [reflexivity|].
  eexists. split; [reflexivity|]. done.
Qed.

(** *** What the measurements leave alone *)

Lemma measure_ew_heap self flg ig h :
  linelists (snd (measure_ew self flg ig h))
  = linelists (snd (cut_spec self true h))
  /\ spectra (snd (measure_ew self flg ig h))
     = spectra (snd (cut_spec self true h)).
Proof.
  rewrite measure_ew_unfold.
  destruct (cut_spec self true h) as [[[[fx sg] [wv ve]]|e] h0]; [|done].
  destruct (lines h0 !! self) as [L0|]; [|done].
  destruct (ew_of flg ig L0 wv fx sg); done.
Qed.

Lemma measure_restew_heap self flg ig h :
  linelists (snd (measure_restew self flg ig h))
  = linelists (snd (cut_spec self true h))
  /\ spectra (snd (measure_restew self flg ig h))
     = spectra (snd (cut_spec self true h)).
Proof.
  destruct (measure_ew_heap self flg ig h) as [<- <-].
  rewrite measure_restew_unfold.
  destruct (measure_ew self flg ig h) as [[[]|e] h1]; [|done].
  destruct (lines h1 !! self) as [L1|]; [|done].
  cbv zeta. destruct (attr_sigEW (attrib L1)); done.
Qed.

Lemma measure_aodm_heap self nsig h :
  linelists (snd (measure_aodm self nsig h))
  = linelists (snd (cut_spec self true h))
  /\ spectra (snd (measure_aodm self nsig h))
     = spectra (snd (cut_spec self true h)).
Proof.
  rewrite measure_aodm_unfold.
  destruct (cut_spec self true h) as [[[[fx sg] [wv ve]]|e] h0]; [|done].
  destruct (lines h0 !! self) as [L0|]; done.
Qed.

Lemma measure_ew_cut self flg ig h h' :
  measure_ew self flg ig h = (Ok tt, h') ->
  exists out h0, cut_spec self true h = (Ok out, h0).
Proof.
  rewrite measure_ew_unfold.
  destruct (cut_spec self true h) as [[out|e] h0]; [by eauto|].
  discriminate.
Qed.

Lemma measure_restew_cut self flg ig h h' :
  measure_restew self flg ig h = (Ok tt, h') ->
  exists out h0, cut_spec self true h = (Ok out, h0).
Proof.
  rewrite measure_restew_unfold.
  destruct (measure_ew self flg ig h) as [[[]|e] h1] eqn:E; [|discriminate].
  intros _. by eapply measure_ew_cut.
Qed.

Lemma measure_aodm_cut self nsig h h' :
  measure_aodm self nsig h = (Ok tt, h') ->
  exists out h0, cut_spec self true h = (Ok out, h0).
Proof.
  rewrite measure_aodm_unfold.
  destruct (cut_spec self true h) as [[out|e] h0]; [by eauto|].
  discriminate.
Qed.

Lemma cut_spec_velo self n h out h0 :
  cut_spec self n h = (Ok out, h0) ->
  exists L r sp,
    lines h !! self = Some L /\ analy_spec (analy L) = Some r
    /\ spectra h !! r = Some sp
    /\ spectra h0
       = <[r:=set_velo sp (relative_vel sp (wv_obs L))]> (spectra h).
Proof.
  intros E. apply cut_spec_Ok_inv in E.
  destruct E as (L & r & sp & pix & fx & sg & wave & velo_ & fx' & sg' & E1
                 & E2 & E3 & _ & _ & _ & _ & _ & _ & _ & _ & ->).
  by exists L, r, sp.
Qed.

(** C3 (as amended).  [cut_spec], [measure_ew], [measure_restew] and
    [measure_aodm] leave every line list as it is and every spectrum as it
    is apart from its [velo] attribute, whether they return or raise;
    [cut_spec] leaves the [attrib] of every line as it is; and a
    [cut_spec] that returns has stored the velocities relative to the
    line in the [velo] attribute of the attached spectrum.  Each
    measurement leaves the spectra exactly as [cut_spec(normalize=True)]
    leaves them, whether it returns or raises, and a measurement that
    returns has overwritten the [velo] attribute of the attached spectrum
    with these velocities. *)
Theorem measurement_frame self n flg ig nsig h :
  (linelists (snd (cut_spec self n h)) = linelists h
   /\ erase_velo <$> spectra (snd (cut_spec self n h))
      = erase_velo <$> spectra h
   /\ attrib <$> lines (snd (cut_spec self n h)) = attrib <$> lines h)
  /\ (linelists (snd (measure_ew self flg ig h)) = linelists h
      /\ erase_velo <$> spectra (snd (measure_ew self flg ig h))
         = erase_velo <$> spectra h)
  /\ (linelists (snd (measure_restew self flg ig h)) = linelists h
      /\ erase_velo <$> spectra (snd (measure_restew self flg ig h))
         = erase_velo <$> spectra h)
  /\ (linelists (snd (measure_aodm self nsig h)) = linelists h
      /\ erase_velo <$> spectra (snd (measure_aodm self nsig h))
         = erase_velo <$> spectra h)
  /\ (forall out h',
        cut_spec self n h = (Ok out, h') ->
        exists L r sp,
          lines h !! self = Some L /\ analy_spec (analy L) = Some r
          /\ spectra h !! r = Some sp
          /\ spectra h'
             = <[r:=set_velo sp (relative_vel sp (wv_obs L))]> (spectra h))
  /\ (spectra (snd (measure_ew self flg ig h))
      = spectra (snd (cut_spec self true h))
      /\ spectra (snd (measure_restew self flg ig h))
         = spectra (snd (cut_spec self true h))
      /\ spectra (snd (measure_aodm self nsig h))
         = spectra (snd (cut_spec self true h)))
  /\ (forall h',
        measure_ew self flg ig h = (Ok tt, h')
        \/ measure_restew self flg ig h = (Ok tt, h')
        \/ measure_aodm self nsig h = (Ok tt, h') ->
        exists L r sp,
          lines h !! self = Some L /\ analy_spec (analy L) = Some r
          /\ spectra h !! r = Some sp
          /\ spectra h'
             = <[r:=set_velo sp (relative_vel sp (wv_obs L))]> (spectra h)
          /\ velo <$> spectra h' !! r
             = Some (Some (relative_vel sp (wv_obs L)))).
Proof.
  pose proof (measure_ew_heap self flg ig h) as [Ew1 Ew2].
  pose proof (measure_restew_heap self flg ig h) as [Er1 Er2].
  pose proof (measure_aodm_heap self nsig h) as [Ea1 Ea2].
  pose proof (cut_spec_linelists self n h) as (? & _).
  pose proof (cut_spec_linelists self true h) as (? & _).
  pose proof (cut_spec_spectra self n h).
  pose proof (cut_spec_spectra self true h).
  pose proof (cut_spec_attrib self n h).
  split_and!; try congruence.
  - by apply cut_spec_velo.
  - intros h' E.
    assert (Ec : exists out h0, cut_spec self true h = (Ok out, h0)
                                /\ spectra h' = spectra h0).
    { destruct E as [E|[E|E]].
      - destruct (measure_ew_cut _ _ _ _ _ E) as (out & h0 & Ec).
        exists out, h0. split; [done|]. rewrite E, Ec in Ew2. exact Ew2.
      - destruct (measure_restew_cut _ _ _ _ _ E) as (out & h0 & Ec).
        exists out, h0. split; [done|]. rewrite E, Ec in Er2. exact Er2.
      - destruct (measure_aodm_cut _ _ _ _ E) as (out & h0 & Ec).
        exists out, h0. split; [done|]. rewrite E, Ec in Ea2. exact Ea2. }
    destruct Ec as (out & h0 & Ec & ->).
    destruct (cut_spec_velo _ _ _ _ _ Ec) as (L & r & sp & E1 & E2 & E3 & E4).
    exists L, r, sp. split_and!; try done.
    rewrite E4, lookup_insert_eq. reflexivity.
Qed.

(** *** Normalisation *)

Lemma np_take_lookup (arr : list Q) (pix : list nat) xs :
  np_take arr pix = Ok xs ->
  length xs = length pix
  /\ forall i p, pix !! i = Some p -> xs !! i = arr !! p /\ is_Some (arr !! p).
Proof.
  revert xs. induction pix as [|p0 pix IH]; intros xs E; cbn in E.
  - simplify_eq. split; [done|]. intros i p Hp. by destruct i.
  - destruct (arr !! p0) as [x|] eqn:Ex; [|discriminate].
    destruct (np_take arr pix) as [ys|]; [|discriminate]. simplify_eq.
    destruct (IH ys eq_refl) as [Hl Hp]. split; [cbn; by rewrite Hl|].
    intros [|i] p Hi; cbn in Hi.
    + simplify_eq. cbn. by rewrite Ex.
    + cbn. by apply Hp.
Qed.

Lemma np_div_lookup (a b : list Q) i x y :
  a !! i = Some x -> b !! i = Some y -> np_div a b !! i = Some (x / y)%Q.
Proof.
  revert b i. induction a as [|x0 a IH]; intros [|y0 b] [|i]; cbn;
    intros; simplify_eq; try done. by apply IH.
Qed.

Lemma np_div_length (a b : list Q) :
  length a = length b -> length (np_div a b) = length a.
Proof.
  revert b. induction a as [|x a IH]; intros [|y b]; cbn; intros Hl;
    try done. f_equal. apply IH. lia.
Qed.

(** C6.  Let [cut_spec(normalize=False)] return the slices [fx] and [sg]
    of the flux and the uncertainty at the pixels [pix].  When the
    spectrum has no continuum, [cut_spec(normalize=True)] returns the same
    result, nothing divided, and raises nothing.  When it has a continuum
    [c] with these pixels, [cut_spec(normalize=True)] returns [fx] and
    [sg] both divided, element by element, by the slice of [c] at [pix]:
    the arrays returned are as long as the slices, and at every selected
    pixel they hold the quotient of the flux, and of the uncertainty, by
    the continuum of that pixel.  In both cases the store is left as
    [cut_spec(normalize=False)] leaves it. *)
Theorem cut_spec_normalize self h L r sp fx sg xd h1 :
  lines h !! self = Some L -> analy_spec (analy L) = Some r ->
  spectra h !! r = Some sp ->
  cut_spec self false h = (Ok (fx, sg, xd), h1) ->
  exists pix L1,
    lines h1 !! self = Some L1 /\ analy_pix (analy L1) = Some pix
    /\ np_take (flux sp) pix = Ok fx /\ np_take (sig sp) pix = Ok sg
    /\ (conti sp = None -> cut_spec self true h = (Ok (fx, sg, xd), h1))
    /\ (forall c, conti sp = Some c -> in_range (length c) pix ->
          exists ct, np_take c pix = Ok ct
                     /\ cut_spec self true h
                        = (Ok (np_div fx ct, np_div sg ct, xd), h1))
    /\ (forall c, conti sp = Some c -> in_range (length c) pix ->
          exists fx' sg',
            cut_spec self true h = (Ok (fx', sg', xd), h1)
            /\ length fx' = length fx /\ length sg' = length sg
            /\ length fx = length pix /\ length sg = length pix
            /\ forall i p,
                 pix !! i = Some p ->
                 exists f s cv,
                   flux sp !! p = Some f /\ sig sp !! p = Some s
                   /\ c !! p = Some cv
                   /\ fx !! i = Some f /\ sg !! i = Some s
                   /\ fx' !! i = Some (f / cv)%Q
                   /\ sg' !! i = Some (s / cv)%Q).
Proof.
  intros E1 E2 E3 E. apply cut_spec_Ok_inv in E.
  destruct E as (L' & r' & sp' & pix & fx0 & sg0 & wave & velo_ & fx' & sg'
                 & E1' & E2' & E3' & E4 & E5 & E6 & E7 & E8 & E9 & E10
                 & Eout & ->).
  cbn in E10. simplify_eq.
  eexists pix, _. split; [apply lookup_insert_eq|]. split; [reflexivity|].
  split; [exact E6|]. split; [exact E7|].
  rewrite (cut_spec_window _ true _ _ _ _ _ _ _ _ _ E1 E2 E3 E4 E5 E6 E7
             E8 E9).
  unfold normalize_cut. split; [|split].
  - intros ->. reflexivity.
  - intros c -> Hr. destruct (np_take_in_range _ _ Hr) as (ct & Ect & _).
    exists ct. rewrite Ect. done.
  - intros c -> Hr. destruct (np_take_in_range _ _ Hr) as (ct & Ect & _).
    rewrite Ect.
    destruct (np_take_lookup _ _ _ E6) as [Lf Hf].
    destruct (np_take_lookup _ _ _ E7) as [Ls Hs].
    destruct (np_take_lookup _ _ _ Ect) as [Lc Hc].
    exists (np_div fx' ct), (np_div sg' ct).
    split; [reflexivity|].
    rewrite !np_div_length by congruence.
    split_and!; try done.
    intros i p Hp.
    destruct (Hf i p Hp) as [Ef [f Ef']].
    destruct (Hs i p Hp) as [Es [s Es']].
    destruct (Hc i p Hp) as [Ec' [cv Ecv]].
    exists f, s, cv. split_and!; try congruence.
    + apply np_div_lookup; congruence.
    + apply np_div_lookup; congruence.
Qed.

(** *** Matching *)

Lemma np_allclose_iff (a b rtol atol : Q) :
  np_allclose a b rtol atol = true
  <-> (Qabs (a - b) <= atol + rtol * Qabs b)%Q.
Proof. apply Qle_bool_iff. Qed.

Lemma np_allclose_refl (x rtol atol : Q) :
  (0 <= rtol)%Q -> (0 <= atol)%Q -> np_allclose x x rtol atol = true.
Proof.
  intros Hr Ha. apply np_allclose_iff.
  assert (E : (x - x == 0)%Q) by ring. rewrite E. cbn [Qabs Z.abs Qnum Qden].
  change (0 # 1)%Q with 0%Q.
  rewrite <- (Qplus_0_l 0) at 1. apply Qplus_le_compat; [exact Ha|].
  apply Qmult_le_0_compat; [exact Hr | apply Qabs_nonneg].
Qed.

(** C5 (as amended).  [ismatch] returns true exactly when the rest
    wavelengths, in Angstrom, differ by at most [1e-8 + 1e-5 * |w|], the
    redshifts differ by at most [1e-8 + 1e-6 * |z|] ([w] and [z] those of
    [inp]), the ion, when one is given or [inp] is a line, has the [Z] and
    [ion] of [self], and the position, when one is given or [inp] is a
    line, is less than 0.1 arcsecond from that of [self].  A line matches
    the pair of its own redshift and rest wavelength. *)
Theorem ismatch_tolerances self h L :
  lines h !! self = Some L ->
  (forall inp Zion RADec w z Zion_ coord_,
     match_input h inp Zion RADec = Some (w, z, Zion_, coord_) ->
     exists b,
       ismatch self inp Zion RADec h = (Ok b, h)
       /\ (b = true
           <-> (Qabs (to_AA (wrest L) - to_AA w)
                <= (1 # 100000000) + (1 # 100000) * Qabs (to_AA w))%Q
               /\ (Qabs (attr_z (attrib L) - z)
                   <= (1 # 100000000) + (1 # 1000000) * Qabs z)%Q
               /\ (forall Z_ ion_, Zion_ = Some (Z_, ion_) ->
                     data_Z (data L) = Z_ /\ data_ion (data L) = ion_)
               /\ (forall c, coord_ = Some c ->
                     (separation c (attr_coord (attrib L)) < 1 # 10)%Q)))
  /\ ismatch self (InpTuple (attr_z (attrib L)) (wrest L)) None None h
     = (Ok true, h).
Proof.
  intros E1. split.
  - intros inp Zion RADec w z Zion_ coord_ Hin.
    unfold ismatch.
    rewrite (bind_Ok _ _ _ _ _ (get_line_Some _ _ _ E1)).
    unfold match_input in Hin.
    setoid_rewrite <- np_allclose_iff. fold default_rtol default_atol.
    setoid_rewrite <- Qlt_bool_iff.
    destruct inp as [other|z' w'|]; [| |discriminate].
    + destruct (lines h !! other) as [Lo|] eqn:EO; [|discriminate].
      injection Hin as <- <- <- <-.
      unfold bind, ret, get_line. rewrite EO. cbn.
      eexists. split; [reflexivity|].
      destruct Zion as [[Z_ ion_]|], RADec as [[ra_ dec_]|];
        destruct (np_allclose (to_AA (wrest L)) _ _ _),
                 (np_allclose (attr_z (attrib L)) _ _ _); cbn;
        rewrite ?andb_true_iff, ?Z.eqb_eq;
        (split;
         [ intros ?; destruct_and?; split_and?; try done;
           intros; simplify_eq; done
         | intros (? & ? & HZ & Hc);
           destruct (HZ _ _ eq_refl); pose proof (Hc _ eq_refl); done ]).
    + injection Hin as <- <- <- <-.
      unfold bind, ret. cbn. eexists. split; [reflexivity|].
      destruct Zion as [[Z_ ion_]|], RADec as [[ra_ dec_]|];
        destruct (np_allclose (to_AA (wrest L)) _ _ _),
                 (np_allclose (attr_z (attrib L)) _ _ _); cbn;
        rewrite ?andb_true_iff, ?Z.eqb_eq;
        (split;
         [ intros ?; destruct_and?; split_and?; try done;
           intros; simplify_eq; done
         | intros (? & ? & HZ & Hc);
           try destruct (HZ _ _ eq_refl); try pose proof (Hc _ eq_refl);
           done ]).
  - unfold ismatch.
    rewrite (bind_Ok _ _ _ _ _ (get_line_Some _ _ _ E1)).
    unfold bind, ret. cbn.
    rewrite !np_allclose_refl; done.
Qed.

(** *** Profiles *)

(** The two checks of [generate_voigt] come first, [N] before [b]. *)
Lemma generate_voigt_checks self wave h L :
  lines h !! self = Some L ->
  ((attr_N (attrib L) < 1)%Q ->
   generate_voigt self wave h
   = (Raise (ValueError
        "Need to initialize log column density in attrib['N']"), h))
  /\ (~ (attr_N (attrib L) < 1)%Q -> (attr_b (attrib L) < 1)%Q ->
      generate_voigt self wave h
      = (Raise (ValueError
           "Need to initialize Doppler parameter in attrib['b']"), h))
  /\ (~ (attr_N (attrib L) < 1)%Q -> ~ (attr_b (attrib L) < 1)%Q ->
      forall w, wave = Some w ->
      generate_voigt self wave h = (Ok (voigt_from_abslines w L), h)).
Proof.
  intros E1. unfold generate_voigt.
  rewrite (bind_Ok _ _ _ _ _ (get_line_Some _ _ _ E1)).
  split; [|split].
  - intros HN. apply Qlt_bool_iff in HN. by rewrite HN.
  - intros HN Hb. apply Qlt_bool_iff in Hb. rewrite Hb.
    destruct (Qlt_bool (attr_N (attrib L)) 1) eqn:E; [|done].
    by apply Qlt_bool_iff in E.
  - intros HN Hb w ->.
    destruct (Qlt_bool (attr_N (attrib L)) 1) eqn:E;
      [by apply Qlt_bool_iff in E|].
    destruct (Qlt_bool (attr_b (attrib L)) 1) eqn:E';
      [by apply Qlt_bool_iff in E'|].
    reflexivity.
Qed.

(** *** Construction *)

Lemma AbsLine_init_unfold trans_ r c z h ll :
  linelists h !! r = Some ll -> trans_ <> TOther ->
  AbsLine_init trans_ (LLRef r) c z h
  = let h1 := mkHeap (lines h) (spectra h)
                     (<[r:=set_closest ll c]> (linelists h))
                     (next_id h) (lookup_log h ++ [trans_]) in
    match LineList_getitem (set_closest ll c) trans_ with
    | Raise e => (Raise e, h1)
    | Ok d =>
        (Ok (next_id h),
         mkHeap (<[next_id h:=fresh_line d z]> (lines h)) (spectra h)
                (<[r:=set_closest ll c]> (linelists h))
                (S (next_id h)) (lookup_log h ++ [trans_]))
    end.
Proof.
  intros E Ht. unfold AbsLine_init, SpectralLine_init, fill_data. cbn.
  unfold bind, ret, get_linelist, put_linelist, log_lookup, lift, alloc_line.
  destruct trans_; [| |done]; cbn; rewrite E; cbn;
    destruct (LineList_getitem _ _); reflexivity.
Qed.

Lemma fill_data_linelists self trans_ r c h ll :
  linelists h !! r = Some ll ->
  linelists (snd (fill_data self trans_ (LLRef r) c h))
  = <[r:=set_closest ll c]> (linelists h).
Proof.
  intros E. unfold fill_data. cbn.
  unfold bind, ret, get_linelist, put_linelist, log_lookup, lift.
  rewrite E. cbn. destruct (LineList_getitem _ _); reflexivity.
Qed.

(** C9.  [fill_data], given the line list object [r], overwrites the
    [closest] attribute of that object with its [closest] argument,
    whether or not the lookup then succeeds.  So does the constructor,
    given a quantity or a name: whoever reads the object afterwards sees
    the constructor's flag, and after a construction with
    [closest=True], one with [closest=False] (the default) leaves the
    list at [closest = False]. *)
Theorem fill_data_overwrites_closest self trans_ r c h ll :
  linelists h !! r = Some ll ->
  linelists (snd (fill_data self trans_ (LLRef r) c h))
  = <[r:=set_closest ll c]> (linelists h)
  /\ (forall z, trans_ <> TOther ->
        linelists (snd (AbsLine_init trans_ (LLRef r) c z h))
        = <[r:=set_closest ll c]> (linelists h)
        /\ fst (get_linelist r (snd (AbsLine_init trans_ (LLRef r) c z h)))
           = Ok (set_closest ll c))
  /\ (forall t1 z1 t2 z2,
        t1 <> TOther -> t2 <> TOther ->
        let h1 := snd (AbsLine_init t1 (LLRef r) true z1 h) in
        let h2 := snd (AbsLine_init t2 (LLRef r) false z2 h1) in
        closest <$> linelists h1 !! r = Some true
        /\ closest <$> linelists h2 !! r = Some false).
Proof.
  intros E.
  assert (Hl : forall t c' z' h' ll',
            linelists h' !! r = Some ll' -> t <> TOther ->
            linelists (snd (AbsLine_init t (LLRef r) c' z' h'))
            = <[r:=set_closest ll' c']> (linelists h')).
  { intros t c' z' h' ll' E' Ht'.
    rewrite (AbsLine_init_unfold _ _ _ _ _ _ E' Ht'). cbv zeta.
    destruct (LineList_getitem _ _); reflexivity. }
  split; [by apply fill_data_linelists|]. split.
  - intros z Ht. split; [by apply Hl|].
    unfold get_linelist. rewrite (Hl _ _ _ _ _ E Ht), lookup_insert_eq.
    reflexivity.
  - intros t1 z1 t2 z2 Ht1 Ht2 h1 h2.
    assert (E1 : linelists h1 !! r = Some (set_closest ll true)).
    { subst h1. rewrite (Hl _ _ _ _ _ E Ht1). apply lookup_insert_eq. }
    split; [by rewrite E1|].
    subst h2. rewrite (Hl _ _ _ _ _ E1 Ht2), lookup_insert_eq. reflexivity.
Qed.

(** C10.  [many_abslines] on an empty list of rest wavelengths raises
    [IndexError], whatever the line list; it makes no line and does no
    lookup. *)
Theorem many_abslines_empty llist h :
  many_abslines [] llist h = (Raise IndexError, h).
Proof. reflexivity. Qed.

(** *** [np.unique] and float-keyed dictionaries *)

Lemma insert_uniq_InA (x z : Q) (l : list Q) :
  InA Qeq z (insert_uniq x l) <-> (z == x)%Q \/ InA Qeq z l.
Proof.
  induction l as [|y l IH]; cbn.
  - rewrite InA_cons. reflexivity.
  - destruct (Qeq_bool x y) eqn:E.
    + apply Qeq_bool_iff in E. split; [by right|].
      intros [Hz|Hz]; [|exact Hz]. apply InA_cons_hd. by rewrite Hz.
    + destruct (Qle_bool x y).
      * rewrite InA_cons. reflexivity.
      * rewrite !InA_cons, IH. tauto.
Qed.

Lemma insert_uniq_In (x z : Q) (l : list Q) :
  In z (insert_uniq x l) -> z = x \/ In z l.
Proof.
  induction l as [|y l IH]; cbn.
  - intros [->|[]]. by left.
  - destruct (Qeq_bool x y); [by right|].
    destruct (Qle_bool x y) eqn:E; cbn.
    + intros [->|Hz]; [by left | by right].
    + intros [->|Hz]; [by right; left|]. destruct (IH Hz); auto.
Qed.

Lemma insert_uniq_sorted (x : Q) (l : list Q) :
  StronglySorted Qlt l -> StronglySorted Qlt (insert_uniq x l).
Proof.
  induction 1 as [|y l Hs IH Hy]; cbn.
  - repeat constructor.
  - destruct (Qeq_bool x y) eqn:E; [by constructor|].
    apply Qeq_bool_neq in E.
    destruct (Qle_bool x y) eqn:E'.
    + apply Qle_bool_iff in E'.
      assert (Hlt : (x < y)%Q)
        by (apply Qle_lteq in E'; destruct E' as [?|?]; done).
      constructor; [by constructor|].
      constructor; [exact Hlt|].
      eapply Forall_impl; [exact Hy|]. intros z Hz. cbn in Hz.
      eapply Qlt_trans; eassumption.
    + assert (Hlt : (y < x)%Q).
      { apply Qnot_le_lt. intros Hle. apply Qle_bool_iff in Hle. congruence. }
      constructor; [exact IH|].
      apply List.Forall_forall. intros z Hz.
      destruct (insert_uniq_In _ _ _ Hz) as [->|Hz']; [exact Hlt|].
      rewrite List.Forall_forall in Hy. by apply Hy.
Qed.

Lemma np_unique_sorted (l : list Q) : StronglySorted Qlt (np_unique l).
Proof.
  induction l as [|x l IH]; cbn; [constructor|].
  by apply insert_uniq_sorted.
Qed.

Lemma sorted_NoDupA (l : list Q) : StronglySorted Qlt l -> NoDupA Qeq l.
Proof.
  induction 1 as [|y l Hs IH Hy]; constructor; [|exact IH].
  intros Hin. apply InA_alt in Hin. destruct Hin as (z & Hz & Hin).
  rewrite List.Forall_forall in Hy. specialize (Hy z Hin).
  rewrite Hz in Hy. exact (Qlt_irrefl _ Hy).
Qed.

(** [np.unique] keeps one value of each magnitude, and no other. *)
Lemma np_unique_NoDupA (l : list Q) : NoDupA Qeq (np_unique l).
Proof. apply sorted_NoDupA, np_unique_sorted. Qed.

Lemma np_unique_InA (l : list Q) (z : Q) :
  InA Qeq z (np_unique l) <-> InA Qeq z l.
Proof.
  induction l as [|x l IH]; cbn; [reflexivity|].
  rewrite insert_uniq_InA, InA_cons, IH. reflexivity.
Qed.

Lemma dict_get_Qeq d (k k' : Q) :
  (k == k')%Q -> dict_get d k = dict_get d k'.
Proof.
  intros E. induction d as [|[k0 v0] d IH]; cbn; [reflexivity|].
  assert (Eb : Qeq_bool k k0 = Qeq_bool k' k0).
  { apply eq_true_iff_eq. rewrite !Qeq_bool_iff, E. reflexivity. }
  rewrite Eb, IH. reflexivity.
Qed.

Lemma dict_get_set d (k k' : Q) v :
  dict_get (dict_set d k v) k'
  = if Qeq_bool k' k then Some v else dict_get d k'.
Proof.
  induction d as [|[k0 v0] d IH]; cbn; [reflexivity|].
  destruct (Qeq_bool k k0) eqn:E; cbn.
  - apply Qeq_bool_iff in E.
    assert (Eb : Qeq_bool k' k0 = Qeq_bool k' k).
    { apply eq_true_iff_eq. rewrite !Qeq_bool_iff, E. reflexivity. }
    rewrite Eb. destruct (Qeq_bool k' k); reflexivity.
  - destruct (Qeq_bool k' k0) eqn:E'; [|exact IH].
    destruct (Qeq_bool k' k) eqn:E''; [|reflexivity].
    apply Qeq_bool_iff in E', E''. apply Qeq_bool_neq in E.
    exfalso. apply E. by rewrite <- E', <- E''.
Qed.

(** *** Bulk construction *)

Lemma good_adict_mono ll0 u U adict h h' :
  good_adict ll0 u U adict h ->
  (next_id h <= next_id h')%nat ->
  (forall k, (k < next_id h)%nat -> lines h' !! k = lines h !! k) ->
  good_adict ll0 u U adict h'.
Proof.
  intros Hg Hn Hf k ref Hk.
  destruct (Hg k ref Hk) as (Hlt & v & d & ? & ? & ? & ?).
  split; [lia|]. exists v, d. rewrite (Hf _ Hlt). done.
Qed.

Lemma build_adict_ok r ll0 u U uniq :
  forall adict h l0,
    linelists h !! r = Some l0 -> set_closest l0 false = ll0 ->
    (forall v, In v uniq ->
       In v U /\ is_Ok (LineList_getitem ll0 (TQuantity (mkLength v u)))) ->
    good_adict ll0 u U adict h ->
    exists adict' h' l0',
      build_adict uniq u (LLRef r) adict h = (Ok adict', h')
      /\ linelists h' !! r = Some l0' /\ set_closest l0' false = ll0
      /\ spectra h' = spectra h
      /\ next_id h' = (next_id h + length uniq)%nat
      /\ lookup_log h'
         = (lookup_log h ++ map (fun v => TQuantity (mkLength v u)) uniq)%list
      /\ (forall k, (k < next_id h)%nat -> lines h' !! k = lines h !! k)
      /\ good_adict ll0 u U adict' h'
      /\ (forall k, is_Some (dict_get adict k) \/ InA Qeq k uniq ->
                    is_Some (dict_get adict' k)).
Proof.
  induction uniq as [|v rest IH]; intros adict h l0 El Ec Hlk Hg.
  - exists adict, h, l0. cbn. rewrite Nat.add_0_r, app_nil_r.
    split_and!; try done. intros k [Hk|Hk]; [exact Hk|inversion Hk].
  - destruct (Hlk v (or_introl eq_refl)) as [HU Hok].
    destruct (LineList_getitem ll0 (TQuantity (mkLength v u))) as [d|] eqn:Ed;
      [|destruct Hok].
    cbn [build_adict].
    assert (Ht : TQuantity (mkLength v u) <> TOther) by discriminate.
    pose proof (AbsLine_init_unfold _ _ false 0 _ _ El Ht) as Ei.
    cbv zeta in Ei. rewrite Ec, Ed in Ei.
    rewrite (bind_Ok _ _ _ _ _ Ei).
    set (h1 := mkHeap _ _ _ _ _) in *.
    assert (Hg1 : good_adict ll0 u U (dict_set adict v (next_id h)) h1).
    { intros k ref. rewrite dict_get_set.
      destruct (Qeq_bool k v) eqn:Ek.
      - intros [= <-]. split; [cbn; lia|]. exists v, d.
        apply Qeq_bool_iff in Ek. split_and!; try done.
        apply lookup_insert_eq.
      - intros Hk. destruct (Hg k ref Hk) as (Hlt & v' & d' & ? & ? & ? & ?).
        split; [cbn; lia|]. exists v', d'. split_and!; try done.
        cbn. rewrite lookup_insert_ne; [done|lia]. }
    destruct (IH (dict_set adict v (next_id h)) h1 ll0)
      as (adict' & h' & l0' & Eb & El' & Ec' & Es & En & Elog & Hf & Hg' & Hc).
    { apply lookup_insert_eq. }
    { by subst ll0. }
    { intros v' Hv'. apply Hlk. by right. }
    { exact Hg1. }
    exists adict', h', l0'. split; [exact Eb|].
    split; [exact El'|]. split; [exact Ec'|]. split; [exact Es|].
    split; [rewrite En; cbn; lia|].
    split; [rewrite Elog; cbn; by rewrite <- app_assoc|].
    split.
    { intros k Hk. rewrite Hf by (cbn; lia). cbn.
      rewrite lookup_insert_ne; [done|lia]. }
    split; [exact Hg'|].
    intros k Hk. apply Hc. rewrite dict_get_set.
    destruct (Qeq_bool k v) eqn:Ek; [by left|].
    destruct Hk as [Hk|Hk]; [by left|].
    apply InA_cons in Hk. destruct Hk as [Hk|Hk]; [|by right].
    apply Qeq_bool_iff in Hk. congruence.
Qed.

Lemma deepcopy_fresh p d z h :
  lines h !! p = Some (fresh_line d z) ->
  deepcopy p h
  = (Ok (next_id h),
     mkHeap (<[next_id h:=fresh_line d z]> (lines h)) (spectra h)
            (linelists h) (S (next_id h)) (lookup_log h)).
Proof.
  intros E. unfold deepcopy.
  rewrite (bind_Ok _ _ _ _ _ (get_line_Some _ _ _ E)). reflexivity.
Qed.

Lemma copy_em_up_ok ll0 u U adict wrestv :
  forall h,
    good_adict ll0 u U adict h ->
    (forall k, In k wrestv -> is_Some (dict_get adict k)) ->
    exists h',
      copy_em_up wrestv adict h = (Ok (seq (next_id h) (length wrestv)), h')
      /\ linelists h' = linelists h /\ spectra h' = spectra h
      /\ lookup_log h' = lookup_log h
      /\ next_id h' = (next_id h + length wrestv)%nat
      /\ (forall k, (k < next_id h)%nat -> lines h' !! k = lines h !! k)
      /\ (forall i k, wrestv !! i = Some k ->
            exists p, dict_get adict k = Some p
                      /\ lines h' !! (next_id h + i)%nat = lines h !! p).
Proof.
  induction wrestv as [|k rest IH]; intros h Hg Hc.
  - exists h. cbn. rewrite Nat.add_0_r. split_and!; try done.
  - destruct (Hc k (or_introl eq_refl)) as [p Ep].
    destruct (Hg k p Ep) as (Hlt & v & d & HU & Hv & Ed & Ep').
    cbn [copy_em_up]. rewrite Ep.
    rewrite (bind_Ok _ _ _ _ _ (deepcopy_fresh _ _ _ _ Ep')).
    set (h1 := mkHeap _ _ _ _ _).
    assert (Hf1 : forall j, (j < next_id h)%nat ->
                            lines h1 !! j = lines h !! j).
    { intros j Hj. cbn. rewrite lookup_insert_ne; [done|lia]. }
    destruct (IH h1) as (h' & Ecp & El & Es & Elog & En & Hf & Hi).
    { eapply good_adict_mono; [exact Hg| cbn; lia | exact Hf1]. }
    { intros k' Hk'. apply Hc. by right. }
    exists h'. rewrite (bind_Ok _ _ _ _ _ Ecp). cbn [length seq].
    split; [reflexivity|]. split; [by rewrite El|]. split; [by rewrite Es|].
    split; [by rewrite Elog|]. split; [rewrite En; cbn; lia|].
    split.
    { intros j Hj. rewrite Hf by (cbn; lia). by apply Hf1. }
    intros [|i] k' Hk'; cbn in Hk'.
    + injection Hk' as <-. exists p. split; [exact Ep|].
      rewrite Nat.add_0_r, Hf by (cbn; lia). cbn.
      rewrite lookup_insert_eq. by rewrite Ep'.
    + destruct (Hi i k' Hk') as (p' & Ep2 & El2).
      exists p'. split; [exact Ep2|].
      replace (next_id h + S i)%nat with (next_id h1 + i)%nat by (cbn; lia).
      rewrite El2. apply Hf1. by destruct (Hg k' p' Ep2).
Qed.

Lemma first_failure {A} (f : Q -> result A) (l : list Q) :
  (forall v, In v l -> is_Ok (f v))
  \/ exists pre v post e,
       l = (pre ++ v :: post)%list
       /\ (forall x, In x pre -> is_Ok (f x)) /\ f v = Raise e.
Proof.
  induction l as [|x l IH].
  - left. intros v [].
  - destruct (f x) as [a|e] eqn:Ex.
    + destruct IH as [IH|(pre & v & post & e & -> & Hp & Ev)].
      * left. intros v [<-|Hv]; [by rewrite Ex | by apply IH].
      * right. exists (x :: pre), v, post, e. split; [reflexivity|].
        split; [|exact Ev]. intros y [<-|Hy]; [by rewrite Ex | by apply Hp].
    + right. exists [], x, l, e. split; [reflexivity|].
      split; [intros y [] | exact Ex].
Qed.

Lemma build_adict_raise r ll0 u pre v post e :
  forall adict h l0,
    linelists h !! r = Some l0 -> set_closest l0 false = ll0 ->
    (forall x, In x pre ->
       is_Ok (LineList_getitem ll0 (TQuantity (mkLength x u)))) ->
    LineList_getitem ll0 (TQuantity (mkLength v u)) = Raise e ->
    exists h',
      build_adict (pre ++ v :: post) u (LLRef r) adict h = (Raise e, h')
      /\ linelists h' = <[r:=ll0]> (linelists h)
      /\ spectra h' = spectra h
      /\ next_id h' = (next_id h + length pre)%nat
      /\ lookup_log h'
         = (lookup_log h
            ++ map (fun x => TQuantity (mkLength x u)) (pre ++ [v]))%list.
Proof.
  induction pre as [|x pre IH]; intros adict h l0 El Ec Hok Ev.
  - cbn [app build_adict].
    assert (Ht : TQuantity (mkLength v u) <> TOther) by discriminate.
    pose proof (AbsLine_init_unfold _ _ false 0 _ _ El Ht) as Ei.
    cbv zeta in Ei. rewrite Ec, Ev in Ei.
    rewrite (bind_Raise _ _ _ _ _ Ei).
    eexists. split; [reflexivity|]. cbn. rewrite Nat.add_0_r. done.
  - destruct (LineList_getitem ll0 (TQuantity (mkLength x u))) as [d|e0] eqn:Ed.
    2:{ specialize (Hok x (or_introl eq_refl)). rewrite Ed in Hok.
        destruct Hok. }
    cbn [app build_adict].
    assert (Ht : TQuantity (mkLength x u) <> TOther) by discriminate.
    pose proof (AbsLine_init_unfold _ _ false 0 _ _ El Ht) as Ei.
    cbv zeta in Ei. rewrite Ec, Ed in Ei.
    rewrite (bind_Ok _ _ _ _ _ Ei).
    set (h1 := mkHeap _ _ _ _ _) in *.
    destruct (IH (dict_set adict x (next_id h)) h1 ll0)
      as (h' & Eb & El' & Es & En & Elog).
    { apply lookup_insert_eq. }
    { by subst ll0. }
    { intros y Hy. apply Hok. by right. }
    { exact Ev. }
    exists h'. split; [exact Eb|].
    split; [rewrite El'; cbn; by rewrite insert_insert_eq|].
    split; [exact Es|].
    split; [rewrite En; cbn; lia|].
    rewrite Elog. cbn. by rewrite <- app_assoc.
Qed.

(** C8 (as amended).  Let the rest wavelengths share the unit [u] and
    let [r] be a line list; the constructor sets it to [closest = False].
    When the lookup of every distinct magnitude succeeds in it,
    [many_abslines] returns as many lines as it was given wavelengths; the
    [i]-th is a line made by the constructor from the atomic data of the
    [i]-th magnitude.  One lookup is done for each value of [np.unique],
    which holds every magnitude once.  The lines returned are distinct
    new objects, none of them a line of the dictionary, and none has a
    spectrum attached; those of equal wavelengths are equal; a write to
    one of them leaves the others as they are, and the assignment
    [attrib['N'] = x] to one changes that line and not another.  When a
    lookup fails, [many_abslines] raises the error of the first lookup
    that fails, in the order of [np.unique], after the lookups before it:
    it returns a list exactly when every lookup succeeds.

    A line holds its dictionaries by value, so two lines of the store can
    share only a spectrum. *)
Theorem many_abslines_copies all_wrest r h ll u :
  all_wrest <> [] ->
  Forall (fun q => qunit q = u) all_wrest ->
  linelists h !! r = Some ll ->
  let uniq := np_unique (map qvalue all_wrest) in
  let found v := LineList_getitem (set_closest ll false)
                                  (TQuantity (mkLength v u)) in
  ((forall v, In v uniq -> is_Ok (found v)) ->
   exists refs h',
     many_abslines all_wrest (LLRef r) h = (Ok refs, h')
     /\ length refs = length all_wrest
     /\ (forall i q,
           all_wrest !! i = Some q ->
           exists ref v d,
             refs !! i = Some ref /\ In v uniq /\ (v == qvalue q)%Q
             /\ found v = Ok d
             /\ lines h' !! ref = Some (fresh_line d 0))
     /\ lookup_log h'
        = (lookup_log h ++ map (fun v => TQuantity (mkLength v u)) uniq)%list
     /\ NoDupA Qeq uniq
     /\ (forall x, InA Qeq x uniq <-> InA Qeq x (map qvalue all_wrest))
     /\ NoDup refs
     /\ (forall ref, ref ∈ refs -> (next_id h + length uniq <= ref)%nat)
     /\ (forall i j qi qj ri rj,
           all_wrest !! i = Some qi -> all_wrest !! j = Some qj ->
           refs !! i = Some ri -> refs !! j = Some rj ->
           (qvalue qi == qvalue qj)%Q ->
           lines h' !! ri = lines h' !! rj)
     /\ (forall i j ri rj L',
           i <> j -> refs !! i = Some ri -> refs !! j = Some rj ->
           lines (snd (put_line ri L' h')) !! rj = lines h' !! rj)
     /\ (forall i j ri rj x,
           i <> j -> refs !! i = Some ri -> refs !! j = Some rj ->
           exists Li Lj,
             ri <> rj
             /\ lines h' !! ri = Some Li /\ lines h' !! rj = Some Lj
             /\ analy_spec (analy Li) = None /\ analy_spec (analy Lj) = None
             /\ fst (assign_attrib_N ri x h') = Ok tt
             /\ lines (snd (assign_attrib_N ri x h')) !! ri
                = Some (set_attrib Li (set_attr_N (attrib Li) x))
             /\ lines (snd (assign_attrib_N ri x h')) !! rj = Some Lj))
  /\ (forall pre v post e,
        uniq = (pre ++ v :: post)%list ->
        (forall x, In x pre -> is_Ok (found x)) ->
        found v = Raise e ->
        exists h',
          many_abslines all_wrest (LLRef r) h = (Raise e, h')
          /\ linelists h' = <[r:=set_closest ll false]> (linelists h)
          /\ next_id h' = (next_id h + length pre)%nat
          /\ lookup_log h'
             = (lookup_log h
                ++ map (fun x => TQuantity (mkLength x u)) (pre ++ [v]))%list)
  /\ (is_Ok (fst (many_abslines all_wrest (LLRef r) h))
      <-> forall v, In v uniq -> is_Ok (found v)).
Proof.
  intros Hne Hu El uniq found.
  destruct all_wrest as [|first rest]; [done|].
  assert (Hfirst : qunit first = u) by (by inversion Hu).
  remember (first :: rest) as all_wrest eqn:Eall.
  set (ll0 := set_closest ll false) in *.
  set (wrestv := map qvalue all_wrest) in *.
  assert (PA : (forall v, In v uniq -> is_Ok (found v)) ->
    exists refs h',
     many_abslines all_wrest (LLRef r) h = (Ok refs, h')
     /\ length refs = length all_wrest
     /\ (forall i q,
           all_wrest !! i = Some q ->
           exists ref v d,
             refs !! i = Some ref /\ In v uniq /\ (v == qvalue q)%Q
             /\ found v = Ok d
             /\ lines h' !! ref = Some (fresh_line d 0))
     /\ lookup_log h'
        = (lookup_log h ++ map (fun v => TQuantity (mkLength v u)) uniq)%list
     /\ NoDupA Qeq uniq
     /\ (forall x, InA Qeq x uniq <-> InA Qeq x (map qvalue all_wrest))
     /\ NoDup refs
     /\ (forall ref, ref ∈ refs -> (next_id h + length uniq <= ref)%nat)
     /\ (forall i j qi qj ri rj,
           all_wrest !! i = Some qi -> all_wrest !! j = Some qj ->
           refs !! i = Some ri -> refs !! j = Some rj ->
           (qvalue qi == qvalue qj)%Q ->
           lines h' !! ri = lines h' !! rj)
     /\ (forall i j ri rj L',
           i <> j -> refs !! i = Some ri -> refs !! j = Some rj ->
           lines (snd (put_line ri L' h')) !! rj = lines h' !! rj)
     /\ (forall i j ri rj x,
           i <> j -> refs !! i = Some ri -> refs !! j = Some rj ->
           exists Li Lj,
             ri <> rj
             /\ lines h' !! ri = Some Li /\ lines h' !! rj = Some Lj
             /\ analy_spec (analy Li) = None /\ analy_spec (analy Lj) = None
             /\ fst (assign_attrib_N ri x h') = Ok tt
             /\ lines (snd (assign_attrib_N ri x h')) !! ri
                = Some (set_attrib Li (set_attr_N (attrib Li) x))
             /\ lines (snd (assign_attrib_N ri x h')) !! rj = Some Lj)).
  { intros Hlk.
    destruct (build_adict_ok r ll0 u uniq uniq [] h ll El eq_refl)
      as (adict & hm & l0' & Eb & _ & _ & Es & En & Elog & Hf & Hg & Hc).
    { intros v Hv. split; [exact Hv | by apply Hlk]. }
    { intros k ref Hk. discriminate. }
    destruct (copy_em_up_ok ll0 u uniq adict wrestv hm Hg)
      as (h' & Ecp & _ & _ & Elog' & En' & Hf' & Hi).
    { intros k Hk. apply Hc. right. apply np_unique_InA.
      apply InA_alt. exists k. split; [reflexivity | exact Hk]. }
    exists (seq (next_id hm) (length wrestv)), h'.
    assert (Hlen : length wrestv = length all_wrest) by apply length_map.
    assert (Hw : forall i q, all_wrest !! i = Some q ->
                             wrestv !! i = Some (qvalue q)).
    { intros i q Hq. subst wrestv. by rewrite list_lookup_fmap, Hq. }
    assert (Hseq : forall i ref,
              seq (next_id hm) (length wrestv) !! i = Some ref ->
              ref = (next_id hm + i)%nat /\ (i < length wrestv)%nat).
    { intros i ref Hr. by apply lookup_seq in Hr. }
    assert (Hline : forall i ref,
              seq (next_id hm) (length wrestv) !! i = Some ref ->
              exists d, lines h' !! ref = Some (fresh_line d 0)).
    { intros i ref Hr. destruct (Hseq _ _ Hr) as [-> Hlt].
      destruct (lookup_lt_is_Some_2 wrestv i Hlt) as [k Hk].
      destruct (Hi i k Hk) as (p & Ep & Elp).
      destruct (Hg _ _ Ep) as (_ & v & d & _ & _ & _ & Ep').
      exists d. by rewrite Elp. }
    split.
    { clear -Eb Ecp Hfirst Eall. subst uniq wrestv all_wrest.
      unfold many_abslines. rewrite Hfirst.
      rewrite (bind_Ok _ _ _ _ _ Eb). exact Ecp. }
    split; [by rewrite length_seq|].
    split.
    { intros i q Hq. destruct (Hi i _ (Hw i q Hq)) as (p & Ep & Elp).
      destruct (Hg _ _ Ep) as (_ & v & d & HU & Hv & Ed & Ep').
      exists (next_id hm + i)%nat, v, d.
      split.
      { apply lookup_seq. split; [reflexivity|].
        rewrite Hlen. by eapply lookup_lt_Some. }
      split_and!; try done. by rewrite Elp. }
    split; [by rewrite Elog', Elog|].
    split; [apply np_unique_NoDupA|].
    split; [intros x; apply np_unique_InA|].
    split; [apply NoDup_seq|].
    split.
    { intros ref Hr. apply elem_of_seq in Hr. lia. }
    split.
    { intros i j qi qj ri rj Hqi Hqj Hri Hrj Hq.
      destruct (Hseq _ _ Hri) as [-> _]. destruct (Hseq _ _ Hrj) as [-> _].
      destruct (Hi i _ (Hw i qi Hqi)) as (p & Ep & ->).
      destruct (Hi j _ (Hw j qj Hqj)) as (p' & Ep' & ->).
      rewrite (dict_get_Qeq adict _ _ Hq) in Ep. congruence. }
    split.
    { intros i j ri rj L' Hij Hri Hrj.
      destruct (Hseq _ _ Hri) as [-> _]. destruct (Hseq _ _ Hrj) as [-> _].
      cbn. rewrite lookup_insert_ne; [done|lia]. }
    intros i j ri rj x Hij Hri Hrj.
    destruct (Hline _ _ Hri) as [di Eli]. destruct (Hline _ _ Hrj) as [dj Elj].
    destruct (Hseq _ _ Hri) as [-> _]. destruct (Hseq _ _ Hrj) as [-> _].
    exists (fresh_line di 0), (fresh_line dj 0).
    split; [lia|]. split; [exact Eli|]. split; [exact Elj|].
    split; [reflexivity|]. split; [reflexivity|].
    unfold assign_attrib_N.
    rewrite (bind_Ok _ _ _ _ _ (get_line_Some _ _ _ Eli)). cbn.
    split; [reflexivity|]. split; [apply lookup_insert_eq|].
    rewrite lookup_insert_ne; [exact Elj|lia]. }
  assert (PB : forall pre v post e,
        uniq = (pre ++ v :: post)%list ->
        (forall x, In x pre -> is_Ok (found x)) ->
        found v = Raise e ->
        exists h',
          many_abslines all_wrest (LLRef r) h = (Raise e, h')
          /\ linelists h' = <[r:=ll0]> (linelists h)
          /\ next_id h' = (next_id h + length pre)%nat
          /\ lookup_log h'
             = (lookup_log h
                ++ map (fun x => TQuantity (mkLength x u)) (pre ++ [v]))%list).
  { intros pre v post e Eu Hok Ev.
    destruct (build_adict_raise r ll0 u pre v post e [] h ll El eq_refl
                Hok Ev) as (h' & Eb & Ell & _ & En & Elog).
    exists h'. split; [|done].
    clear -Eb Hfirst Eall Eu. subst wrestv all_wrest.
    unfold many_abslines. rewrite Hfirst. fold uniq. rewrite Eu.
    apply bind_Raise. exact Eb. }
  split; [exact PA|]. split; [exact PB|].
  split.
  - intros Hok.
    destruct (first_failure found uniq)
      as [Hall|(pre & v & post & e & Eu & Hp & Ev)]; [exact Hall|].
    destruct (PB pre v post e Eu Hp Ev) as (h' & E & _).
    rewrite E in Hok. destruct Hok.
  - intros Hall. destruct (PA Hall) as (refs & h' & E & _).
    rewrite E. exact I.
Qed.

(** *** More on construction *)

Ltac run_init :=
  unfold AbsLine_init, SpectralLine_init, fill_data, bind, ret, raise,
    get_linelist, put_linelist, log_lookup, lift, alloc_line; cbn.

(** X1.  The constructor checks its arguments in the order line type,
    transition, line list.  A line type other than ['Abs'], a transition
    that is neither a quantity nor a string, and a line list that is
    neither [None], a string nor a [LineList] each raise a [ValueError]
    and leave the store as it was: no lookup is done, no line list is
    written, no line is made. *)
Theorem constructor_validation ltype_ trans_ linelist c z h :
  (ltype_ <> "Abs" ->
   SpectralLine_init ltype_ trans_ linelist c z h
   = (Raise (ValueError ("spec/lines: Not ready for type " ++ ltype_)), h))
  /\ SpectralLine_init "Abs" TOther linelist c z h
     = (Raise (ValueError "Rest wavelength must be a Quantity or str"), h)
  /\ AbsLine_init TOther linelist c z h
     = (Raise (ValueError "Rest wavelength must be a Quantity or str"), h)
  /\ (trans_ <> TOther ->
      AbsLine_init trans_ LLOther c z h
      = (Raise (ValueError "Bad input for linelist"), h)).
Proof.
  split; [|split; [|split]].
  - intros Hl. unfold SpectralLine_init.
    destruct (String.eqb ltype_ "Abs") eqn:E; [|reflexivity].
    apply String.eqb_eq in E. contradiction.
  - reflexivity.
  - reflexivity.
  - intros Ht. destruct trans_; [reflexivity|reflexivity|contradiction].
Qed.

(** X2.  A constructor call that returns has made one new line, at the
    next free reference, from the atomic data [d] that the line list
    gives for the transition once its [closest] flag is set: rest
    wavelength and name are those of [d], the redshift is the argument,
    no spectrum is attached.  It has logged one lookup, and it has written
    no line list other than the object it was given.  A constructor call
    that raises has made no line. *)
Theorem AbsLine_init_result trans_ linelist c z h res h' :
  AbsLine_init trans_ linelist c z h = (res, h') ->
  spectra h' = spectra h
  /\ match res with
     | Raise _ => lines h' = lines h /\ next_id h' = next_id h
     | Ok ref =>
         ref = next_id h /\ next_id h' = S (next_id h)
         /\ lookup_log h' = (lookup_log h ++ [trans_])%list
         /\ exists d,
              lines h' = <[ref:=fresh_line d z]> (lines h)
              /\ wrest (fresh_line d z) = data_wrest d
              /\ trans (fresh_line d z) = data_name d
              /\ attr_z (attrib (fresh_line d z)) = z
              /\ analy_spec (analy (fresh_line d z)) = None
              /\ match linelist with
                 | LLNone =>
                     LineList_getitem (set_closest (LineList_new "ISM") c)
                                      trans_ = Ok d
                     /\ linelists h' = linelists h
                 | LLName s =>
                     LineList_getitem (set_closest (LineList_new s) c)
                                      trans_ = Ok d
                     /\ linelists h' = linelists h
                 | LLRef r =>
                     exists ll,
                       linelists h !! r = Some ll
                       /\ LineList_getitem (set_closest ll c) trans_ = Ok d
                       /\ linelists h' = <[r:=set_closest ll c]> (linelists h)
                 | LLOther => False
                 end
     end.
Proof.
  destruct trans_ as [q|s|]; cycle 2.
  { intros E. cbn in E. by simplify_eq. }
  all: destruct linelist as [|nm|r|]; run_init.
  all: try (destruct (LineList_getitem _ _) as [d|e] eqn:Ed; cbn;
            intros ?; simplify_eq; cbn;
            [split; [done|]; split_and!; try done; by exists d
            |by split_and!]).
  all: try (intros ?; by simplify_eq).
  all: destruct (linelists h !! r) as [ll|] eqn:El; cbn;
       [|intros ?; by simplify_eq].
  all: destruct (LineList_getitem _ _) as [d|e] eqn:Ed; cbn;
       intros ?; simplify_eq; cbn; [|by split_and!].
  all: split; [done|]; split_and!; try done; exists d; split_and!; try done;
       by exists ll.
Qed.

Lemma AbsLine_init_Ok_line trans_ linelist c z h ref h' :
  AbsLine_init trans_ linelist c z h = (Ok ref, h') ->
  exists d, lines h' !! ref = Some (fresh_line d z).
Proof.
  destruct trans_ as [q|s|]; cycle 2.
  { intros E. cbn in E. by simplify_eq. }
  all: destruct linelist as [|nm|r|]; run_init.
  all: try (destruct (LineList_getitem _ _) as [d|e] eqn:Ed; cbn;
            intros ?; simplify_eq; cbn; exists d; apply lookup_insert_eq).
  all: try (intros ?; by simplify_eq).
  all: destruct (linelists h !! r) as [ll|] eqn:El; cbn;
       [|intros ?; by simplify_eq].
  all: destruct (LineList_getitem _ _) as [d|e] eqn:Ed; cbn;
       intros ?; simplify_eq; cbn; exists d; apply lookup_insert_eq.
Qed.

(** X3.  On a line as the constructor returns it, every measurement
    raises the need-a-spectrum error and the profile generator raises the
    column-density error, whatever their arguments, and none of them
    changes the store. *)
Theorem new_line_needs_setup trans_ linelist c z h ref h' :
  AbsLine_init trans_ linelist c z h = (Ok ref, h') ->
  let no_spec :=
    ValueError "spectralline.cut_spec: Need to set spectrum!" in
  (forall n, cut_spec ref n h' = (Raise no_spec, h'))
  /\ (forall flg ig, measure_ew ref flg ig h' = (Raise no_spec, h'))
  /\ (forall flg ig, measure_restew ref flg ig h' = (Raise no_spec, h'))
  /\ (forall nsig, measure_aodm ref nsig h' = (Raise no_spec, h'))
  /\ (forall wave,
        generate_voigt ref wave h'
        = (Raise (ValueError
             "Need to initialize log column density in attrib['N']"), h')).
Proof.
  intros E no_spec. destruct (AbsLine_init_Ok_line _ _ _ _ _ _ _ E) as [d El].
  assert (Hc : forall n, cut_spec ref n h' = (Raise no_spec, h')).
  { intros n. by apply (cut_spec_no_spectrum _ _ _ _ El). }
  split; [exact Hc|]. split.
  { intros flg ig. by rewrite measure_ew_unfold, Hc. }
  split.
  { intros flg ig. by rewrite measure_restew_unfold, measure_ew_unfold, Hc. }
  split.
  { intros nsig. by rewrite measure_aodm_unfold, Hc. }
  intros wave. by apply (generate_voigt_checks _ _ _ _ El).
Qed.

(** *** More on [cut_spec] *)

(** X4.  A [cut_spec] that raises a [ValueError] (no spectrum, no unit,
    no window) has not changed the store.  A [cut_spec] that raises an
    [IndexError] (a selected pixel that an array of the spectrum does not
    have) has already cached the selected pixels on the line. *)
Theorem cut_spec_failure_effects self n h e h' :
  cut_spec self n h = (Raise e, h') ->
  (forall msg, e = ValueError msg -> h' = h)
  /\ (e = IndexError ->
      exists L r sp pix,
        lines h !! self = Some L /\ analy_spec (analy L) = Some r
        /\ spectra h !! r = Some sp /\ window_pix L sp = Some pix
        /\ lines h' !! self = Some (set_analy L (set_pix (analy L) pix))).
Proof.
  intros E.
  destruct (lines h !! self) as [L|] eqn:E1; cycle 1.
  { unfold cut_spec, bind, get_line in E. rewrite E1 in E.
    simplify_eq. split; [intros; simplify_eq | intros; simplify_eq]. }
  destruct (analy_spec (analy L)) as [r|] eqn:E2; cycle 1.
  { rewrite (cut_spec_no_spectrum _ _ _ _ E1 E2) in E. simplify_eq.
    split; [done | intros; simplify_eq]. }
  destruct (spectra h !! r) as [sp|] eqn:E3; cycle 1.
  { unfold cut_spec, bind, get_line, get_spec in E. rewrite E1 in E.
    cbn in E. rewrite E2, E3 in E. simplify_eq.
    split; [intros; simplify_eq | intros; simplify_eq]. }
  destruct (wcs_unit_is_one (wcs_unit sp)) eqn:E4.
  { rewrite (cut_spec_unitless _ _ _ _ _ _ E1 E2 E3 E4) in E. simplify_eq.
    split; [done | intros; simplify_eq]. }
  destruct (window_pix L sp) as [pix|] eqn:E5; cycle 1.
  { rewrite (cut_spec_no_window _ _ _ _ _ _ E1 E2 E3 E4 E5) in E.
    simplify_eq. split; [done | intros; simplify_eq]. }
  assert (Hi : e = IndexError).
  { eapply cut_spec_past_checks_Raise; try eassumption. by rewrite E. }
  split; [intros msg ->; discriminate|]. intros _.
  exists L, r, sp, pix. split_and!; try done.
  rewrite (cut_spec_past_checks _ n _ _ _ _ _ E1 E2 E3 E4 E5) in E.
  cbv zeta in E.
  repeat (match type of E with
          | context [match ?x with _ => _ end] => destruct x
          end; simplify_eq); apply lookup_insert_eq.
Qed.

(** X5.  The four arrays a successful [cut_spec] returns are aligned with
    the pixels it has cached: they have one entry per selected pixel, the
    wavelength and the velocity of that pixel and, without normalisation
    or without a continuum, its flux and uncertainty; with normalisation
    and a continuum, its flux and uncertainty each divided by its
    continuum. *)
Theorem cut_spec_pixelwise self n h fx sg wave velo_ h' :
  cut_spec self n h = (Ok (fx, sg, (wave, velo_)), h') ->
  exists L r sp pix L',
    lines h !! self = Some L /\ analy_spec (analy L) = Some r
    /\ spectra h !! r = Some sp
    /\ lines h' !! self = Some L' /\ analy_pix (analy L') = Some pix
    /\ length fx = length pix /\ length sg = length pix
    /\ length wave = length pix /\ length velo_ = length pix
    /\ forall i p,
         pix !! i = Some p ->
         wave !! i = dispersion sp !! p
         /\ velo_ !! i = relative_vel sp (wv_obs L) !! p
         /\ match (if n then conti sp else None) with
            | None => fx !! i = flux sp !! p /\ sg !! i = sig sp !! p
            | Some c =>
                exists f s cv,
                  flux sp !! p = Some f /\ sig sp !! p = Some s
                  /\ c !! p = Some cv
                  /\ fx !! i = Some (f / cv)%Q /\ sg !! i = Some (s / cv)%Q
            end.
Proof.
  intros E. apply cut_spec_Ok_inv in E.
  destruct E as (L & r & sp & pix & fx0 & sg0 & wave0 & velo0 & fx' & sg'
                 & E1 & E2 & E3 & E4 & E5 & E6 & E7 & E8 & E9 & E10
                 & Eout & ->).
  simplify_eq.
  destruct (np_take_lookup _ _ _ E6) as [Lf Hf].
  destruct (np_take_lookup _ _ _ E7) as [Ls Hs].
  destruct (np_take_lookup _ _ _ E8) as [Lw Hw].
  destruct (np_take_lookup _ _ _ E9) as [Lv Hv].
  exists L, r, sp, pix, (set_analy L (set_pix (analy L) pix)).
  split; [done|]. split; [done|]. split; [done|].
  split; [apply lookup_insert_eq|]. split; [done|].
  unfold normalize_cut in E10.
  destruct n; [destruct (conti sp) as [c|] eqn:Ec|].
  - destruct (np_take c pix) as [ct|] eqn:Et; [|discriminate]. simplify_eq.
    destruct (np_take_lookup _ _ _ Et) as [Lc Hc].
    rewrite !np_div_length by congruence.
    split_and!; try done.
    intros i p Hp. split; [by apply Hw|]. split; [by apply Hv|].
    destruct (Hf i p Hp) as [Ef [f Ef']].
    destruct (Hs i p Hp) as [Es [s Es']].
    destruct (Hc i p Hp) as [Ect [cv Ecv]].
    exists f, s, cv. split_and!; try done.
    + apply np_div_lookup; congruence.
    + apply np_div_lookup; congruence.
  - simplify_eq. split_and!; try done.
    intros i p Hp. split; [by apply Hw|]. split; [by apply Hv|].
    split; [by apply Hf | by apply Hs].
  - simplify_eq. split_and!; try done.
    intros i p Hp. split; [by apply Hw|]. split; [by apply Hv|].
    split; [by apply Hf | by apply Hs].
Qed.

(** *** Repeated measurements *)

(** After a successful [cut_spec], whatever is then written to the
    [attrib] of the line apart from its redshift, [cut_spec] returns the
    same arrays again and changes nothing. *)
Lemma cut_spec_again self n h out h1 L1 a :
  velo_blind ->
  cut_spec self n h = (Ok out, h1) ->
  lines h1 !! self = Some L1 ->
  attr_z a = attr_z (attrib L1) ->
  let hx := with_lines h1 (<[self:=set_attrib L1 a]> (lines h1)) in
  cut_spec self n hx = (Ok out, hx).
Proof.
  intros (Hb1 & Hb2 & Hb3) E El Hz hx.
  apply cut_spec_Ok_inv in E.
  destruct E as (L & r & sp & pix & fx & sg & wave & velo_ & fx' & sg'
                 & E1 & E2 & E3 & E4 & E5 & E6 & E7 & E8 & E9 & E10
                 & -> & ->).
  cbn in El. rewrite lookup_insert_eq in El. injection El as <-.
  cbn in Hz.
  set (L1 := set_analy L (set_pix (analy L) pix)) in *.
  set (v := relative_vel sp (wv_obs L)) in *.
  set (Lx := set_attrib L1 a).
  set (sp1 := set_velo sp v).
  assert (X1 : lines hx !! self = Some Lx) by apply lookup_insert_eq.
  assert (X2 : analy_spec (analy Lx) = Some r) by exact E2.
  assert (X3 : spectra hx !! r = Some sp1) by apply lookup_insert_eq.
  assert (X4 : wcs_unit_is_one (wcs_unit sp1) = false) by exact E4.
  assert (Ew : wv_obs Lx = wv_obs L).
  { unfold wv_obs. cbn. by rewrite Hz. }
  assert (X5 : window_pix Lx sp1 = Some pix).
  { rewrite <- E5. unfold window_pix, wvlim_set, vlim_set. cbn.
    unfold sp1. by rewrite Hb1, Hb2, Hz. }
  assert (X9 : np_take (relative_vel sp1 (wv_obs Lx)) pix = Ok velo_).
  { rewrite Ew. unfold sp1. by rewrite Hb3. }
  rewrite (cut_spec_window self n hx Lx r sp1 pix fx sg wave velo_
             X1 X2 X3 X4 X5 E6 E7 E8 X9).
  assert (En : normalize_cut n sp1 pix fx sg = Ok (fx', sg')) by exact E10.
  rewrite En. f_equal.
  unfold heap_cut, hx, with_lines. cbn. rewrite Ew.
  unfold sp1 at 2. rewrite Hb3. fold v. f_equal.
  - by rewrite !insert_insert_eq.
  - by rewrite insert_insert_eq.
Qed.

(** X6.  When the spectrum's collaborators do not read its [velo]
    attribute, a successful [cut_spec] called again returns the same
    arrays and leaves the store as the first call left it. *)
Theorem cut_spec_idempotent self n h out h1 :
  velo_blind ->
  cut_spec self n h = (Ok out, h1) ->
  cut_spec self n h1 = (Ok out, h1).
Proof.
  intros Hb E.
  destruct (cut_spec_line _ _ _ _ _ E) as (L & L1 & _ & El & _).
  pose proof (cut_spec_again self n h out h1 L1 (attrib L1) Hb E El eq_refl)
    as Ex.
  cbv zeta in Ex.
  replace (set_attrib L1 (attrib L1)) with L1 in Ex by (by destruct L1).
  rewrite (insert_id _ _ _ El) in Ex. by rewrite with_lines_id in Ex.
Qed.

(** What a successful [measure_ew] has done. *)
Lemma measure_ew_Ok_inv self flg ig h h1 :
  measure_ew self flg ig h = (Ok tt, h1) ->
  exists fx sg wv ve h0 L0 ew,
    cut_spec self true h = (Ok (fx, sg, (wv, ve)), h0)
    /\ lines h0 !! self = Some L0
    /\ ew_of flg ig L0 wv fx sg = Ok ew
    /\ h1 = with_lines h0
              (<[self:=set_attrib L0
                         (set_attr_sigEW (set_attr_EW (attrib L0) ew.1)
                                         ew.2)]> (lines h0)).
Proof.
  rewrite measure_ew_unfold.
  destruct (cut_spec self true h) as [[[[fx sg] [wv ve]]|e] h0] eqn:Ec;
    [|discriminate].
  destruct (lines h0 !! self) as [L0|] eqn:E0; [|discriminate].
  destruct (ew_of flg ig L0 wv fx sg) as [ew|] eqn:Ee; [|discriminate].
  intros [= <-]. by exists fx, sg, wv, ve, h0, L0, ew.
Qed.

(** After a successful [measure_ew], whatever is then written to the
    [attrib] of the line apart from its redshift, [measure_ew] with the
    same arguments writes the same two values again. *)
Lemma measure_ew_again self flg ig h h1 :
  velo_blind ->
  measure_ew self flg ig h = (Ok tt, h1) ->
  exists h0 L0 ew,
    lines h0 !! self = Some L0
    /\ h1 = with_lines h0
              (<[self:=set_attrib L0
                         (set_attr_sigEW (set_attr_EW (attrib L0) ew.1)
                                         ew.2)]> (lines h0))
    /\ forall a,
         attr_z a = attr_z (attrib L0) ->
         measure_ew self flg ig
           (with_lines h0 (<[self:=set_attrib L0 a]> (lines h0)))
         = (Ok tt,
            with_lines h0
              (<[self:=set_attrib L0
                         (set_attr_sigEW (set_attr_EW a ew.1) ew.2)]>
                 (lines h0))).
Proof.
  intros Hb E. apply measure_ew_Ok_inv in E.
  destruct E as (fx & sg & wv & ve & h0 & L0 & ew & Ec & E0 & Ee & ->).
  exists h0, L0, ew. split; [exact E0|]. split; [reflexivity|].
  intros a Hz.
  pose proof (cut_spec_again self true h _ h0 L0 a Hb Ec E0 Hz) as Ex.
  cbv zeta in Ex. rewrite measure_ew_unfold, Ex.
  cbn [lines with_lines]. rewrite lookup_insert_eq.
  change (ew_of flg ig (set_attrib L0 a) wv fx sg)
    with (ew_of flg ig L0 wv fx sg).
  rewrite Ee. unfold with_lines. cbn. by rewrite insert_insert_eq.
Qed.

(** X7.  When the spectrum's collaborators do not read its [velo]
    attribute, a successful [measure_ew] called again with the same
    arguments succeeds and leaves the store as the first call left it. *)
Theorem measure_ew_idempotent self flg ig h h1 :
  velo_blind ->
  measure_ew self flg ig h = (Ok tt, h1) ->
  measure_ew self flg ig h1 = (Ok tt, h1).
Proof.
  intros Hb E.
  destruct (measure_ew_again _ _ _ _ _ Hb E) as (h0 & L0 & ew & E0 & -> & Ha).
  specialize (Ha (set_attr_sigEW (set_attr_EW (attrib L0) ew.1) ew.2) eq_refl).
  exact Ha.
Qed.

(** X8.  When the spectrum's collaborators do not read its [velo]
    attribute: after a successful [measure_restew], [measure_ew] with the
    same arguments does what it does before it (the observer-frame values
    are written again), and [measure_restew] again leaves the store as
    it is, the equivalent width divided by [1 + z] once, not twice. *)
Theorem measure_restew_idempotent self flg ig h h2 :
  velo_blind ->
  measure_restew self flg ig h = (Ok tt, h2) ->
  measure_ew self flg ig h2 = measure_ew self flg ig h
  /\ measure_restew self flg ig h2 = (Ok tt, h2).
Proof.
  intros Hb E.
  assert (Hew : measure_ew self flg ig h2 = measure_ew self flg ig h).
  { rewrite measure_restew_unfold in E.
    destruct (measure_ew self flg ig h) as [[[]|e] h1] eqn:Em; [|discriminate].
    destruct (measure_ew_again _ _ _ _ _ Hb Em)
      as (h0 & L0 & ew & E0 & -> & Ha).
    cbn [lines with_lines] in E. rewrite lookup_insert_eq in E.
    cbn in E. injection E as <-.
    unfold with_lines. cbn. rewrite insert_insert_eq.
    apply (Ha (set_attr_sigEW
                 (set_attr_EW
                    (set_attr_sigEW (set_attr_EW (attrib L0) ew.1) ew.2)
                    (ew.1 / (attr_z (attrib L0) + 1))%Q)
                 (ew.2 / (attr_z (attrib L0) + 1))%Q)).
    reflexivity. }
  split; [exact Hew|].
  rewrite measure_restew_unfold, Hew, <- measure_restew_unfold. exact E.
Qed.

(** *** What the measurements write *)

(** X9.  A successful [measure_ew] has written to [attrib['EW']] and
    [attrib['sigEW']] the pair that [box_ew] ([flg = 1]) or [gaussian_ew]
    ([flg = 2]) gives for the normalised window of [cut_spec]; every other
    key of [attrib] is as before, the keys ['EWsig'] and ['flgEW'] that the
    constructor made among them; no other line is touched. *)
Theorem measure_ew_writes self flg ig h h1 L :
  measure_ew self flg ig h = (Ok tt, h1) ->
  lines h !! self = Some L ->
  exists fx sg wv ve h0 ew L1,
    cut_spec self true h = (Ok (fx, sg, (wv, ve)), h0)
    /\ (flg = 1%Z /\ ew = box_ew wv fx sg
        \/ flg = 2%Z /\ ew = gaussian_ew wv fx sg (ltype L) ig)
    /\ lines h1 !! self = Some L1
    /\ attrib L1 = set_attr_sigEW (set_attr_EW (attrib L) ew.1) ew.2
    /\ attr_EW (attrib L1) = ew.1 /\ attr_sigEW (attrib L1) = Some ew.2
    /\ attr_EWsig (attrib L1) = attr_EWsig (attrib L)
    /\ attr_flgEW (attrib L1) = attr_flgEW (attrib L)
    /\ (forall k, k <> self -> lines h1 !! k = lines h !! k).
Proof.
  intros E El. apply measure_ew_Ok_inv in E.
  destruct E as (fx & sg & wv & ve & h0 & L0 & ew & Ec & E0 & Ee & ->).
  destruct (cut_spec_line _ _ _ _ _ Ec) as (L' & L0' & El' & E0' & Ha & Ht & _).
  simplify_eq.
  exists fx, sg, wv, ve, h0, ew. eexists.
  split; [exact Ec|]. split.
  { unfold ew_of in Ee. destruct (Z.eqb flg 1) eqn:F1.
    - left. apply Z.eqb_eq in F1. by simplify_eq.
    - destruct (Z.eqb flg 2) eqn:F2; [|discriminate].
      right. apply Z.eqb_eq in F2. simplify_eq. by rewrite Ht. }
  split; [apply lookup_insert_eq|]. cbn. rewrite Ha.
  split_and!; try done.
  intros k Hk. rewrite lookup_insert_ne by done.
  apply cut_spec_Ok_inv in Ec.
  destruct Ec as (L2 & r & sp & pix & ? & ? & ? & ? & ? & ? & _ & _ & _ & _
                  & _ & _ & _ & _ & _ & _ & _ & ->).
  cbn. by rewrite lookup_insert_ne.
Qed.

(** X10.  With a flag other than 1 and 2, [measure_ew] first cuts the
    spectrum: it raises what [cut_spec(normalize=True)] raises, else a
    [ValueError] whose message ends with the flag in decimal; either way
    it leaves the store as [cut_spec] leaves it, and the [attrib] of every
    line as it was. *)
Theorem measure_ew_bad_flag self flg ig h :
  flg <> 1%Z -> flg <> 2%Z ->
  fst (measure_ew self flg ig h)
  = match fst (cut_spec self true h) with
    | Ok _ => Raise (ValueError ("measure_ew: Not ready for this flag "
                                 ++ format_d flg))
    | Raise e => Raise e
    end
  /\ snd (measure_ew self flg ig h) = snd (cut_spec self true h)
  /\ attrib <$> lines (snd (measure_ew self flg ig h)) = attrib <$> lines h.
Proof.
  intros F1 F2.
  assert (E : fst (measure_ew self flg ig h)
              = match fst (cut_spec self true h) with
                | Ok _ => Raise (ValueError
                                   ("measure_ew: Not ready for this flag "
                                    ++ format_d flg))
                | Raise e => Raise e
                end
              /\ snd (measure_ew self flg ig h) = snd (cut_spec self true h)).
  { rewrite measure_ew_unfold.
    destruct (cut_spec self true h) as [[[[fx sg] [wv ve]]|e] h0] eqn:Ec;
      [|done].
    destruct (cut_spec_line _ _ _ _ _ Ec) as (L & L0 & _ & E0 & _).
    rewrite E0. unfold ew_of.
    destruct (Z.eqb flg 1) eqn:G1; [by apply Z.eqb_eq in G1|].
    destruct (Z.eqb flg 2) eqn:G2; [by apply Z.eqb_eq in G2|]. done. }
  destruct E as [E1 E2]. split; [exact E1|]. split; [exact E2|].
  rewrite E2. apply cut_spec_attrib.
Qed.

(** X11.  A successful [measure_aodm] writes the column density and
    its uncertainty, as [aodm] returns them for the slices of
    [cut_spec(normalize=True)], the rest wavelength and the oscillator
    strength of the line, to [attrib['N']] and [attrib['sigN']], the flag
    of these values to [attrib['flagN']], and what [log_clm] makes of the
    [attrib] so written to [attrib['logN']] and [attrib['sig_logN']].  The
    key ['Nsig'] that the constructor made is as before, and so are the
    equivalent width, its uncertainty, the redshift and the Doppler
    parameter; the flag is 1, 2 or 3; no other line is touched. *)
Theorem measure_aodm_keeps self nsig h h1 L :
  measure_aodm self nsig h = (Ok tt, h1) ->
  lines h !! self = Some L ->
  exists L1,
    lines h1 !! self = Some L1
    /\ attr_Nsig (attrib L1) = attr_Nsig (attrib L)
    /\ is_Some (attr_sigN (attrib L1))
    /\ attr_EW (attrib L1) = attr_EW (attrib L)
    /\ attr_sigEW (attrib L1) = attr_sigEW (attrib L)
    /\ attr_z (attrib L1) = attr_z (attrib L)
    /\ attr_b (attrib L1) = attr_b (attrib L)
    /\ (attr_flagN (attrib L1) = 1 \/ attr_flagN (attrib L1) = 2
        \/ attr_flagN (attrib L1) = 3)%Z
    /\ (forall k, k <> self -> lines h1 !! k = lines h !! k)
    /\ exists fx sg wv velo_ h0,
         cut_spec self true h = (Ok (fx, sg, (wv, velo_)), h0)
         /\ let res := aodm velo_ fx sg (wrest L) (data_f (data L)) in
            attr_N (attrib L1) = res.1.1
            /\ attr_sigN (attrib L1) = Some res.1.2
            /\ attr_flagN (attrib L1) = flagN_of nsig res.1.1 res.1.2 res.2
            /\ let a2 := aodm_values (attrib L) nsig res in
               attr_logN (attrib L1) = Some (log_clm a2).1
               /\ attr_sig_logN (attrib L1) = Some (log_clm a2).2.
Proof.
  rewrite measure_aodm_unfold. intros E El.
  destruct (cut_spec self true h) as [[[[fx sg] [wv ve]]|e] h0] eqn:Ec;
    [|discriminate].
  destruct (cut_spec_line _ _ _ _ _ Ec) as (L' & L0 & El' & E0 & Ha & _ & Hw & Hd).
  simplify_eq. rewrite E0 in E. cbv zeta in E. injection E as <-.
  eexists. split; [apply lookup_insert_eq|]. cbn. rewrite Ha, Hw, Hd.
  split_and!; try done.
  - unfold flagN_of.
    destruct (aodm ve fx sg (wrest L) (data_f (data L))) as [[N sigN] sat].
    cbn. destruct sat; [auto|].
    destruct (Qlt_bool (nsig * sigN) N); auto.
  - intros k Hk. rewrite lookup_insert_ne by done.
    apply cut_spec_Ok_inv in Ec.
    destruct Ec as (L2 & r & sp & pix & ? & ? & ? & ? & ? & ? & _ & _ & _ & _
                    & _ & _ & _ & _ & _ & _ & _ & ->).
    cbn. by rewrite lookup_insert_ne.
  - exists fx, sg, wv, ve, h0. split; [reflexivity|]. cbn. done.
Qed.

(** *** More on matching *)

(** X12.  Matching against a line is matching against the pair of its
    redshift and rest wavelength, with its [Z] and [ion] unless [Zion] is
    given and its position unless [RADec] is given. *)
Theorem ismatch_line_as_tuple self other Zion RADec h Lo :
  lines h !! other = Some Lo ->
  ismatch self (InpLine other) Zion RADec h
  = ismatch self (InpTuple (attr_z (attrib Lo)) (wrest Lo))
      (Some (default (data_Z (data Lo), data_ion (data Lo)) Zion))
      (Some (default (ra (attr_coord (attrib Lo)),
                      dec (attr_coord (attrib Lo))) RADec)) h.
Proof.
  intros Eo. unfold ismatch, bind, ret, get_line.
  destruct (lines h !! self) as [L|]; [|reflexivity].
  rewrite Eo. cbn.
  destruct (attr_coord (attrib Lo)) as [ra_ dec_] eqn:Ec.
  destruct Zion as [[Z_ ion_]|], RADec as [[ra' dec']|]; reflexivity.
Qed.

(** X13.  [ismatch] never changes the store; an input that is neither a
    line nor a tuple raises the bad-input error; and a match with an ion or
    a position given is still a match without them. *)
Theorem ismatch_criteria_restrict self inp Zion RADec h L :
  lines h !! self = Some L ->
  snd (ismatch self inp Zion RADec h) = h
  /\ ismatch self InpOther Zion RADec h
     = (Raise (ValueError "ismatch: Bad input"), h)
  /\ (forall z w,
        fst (ismatch self (InpTuple z w) Zion RADec h) = Ok true ->
        fst (ismatch self (InpTuple z w) None None h) = Ok true).
Proof.
  intros El. split; [|split].
  - unfold ismatch, bind, ret, raise, get_line. rewrite El.
    destruct inp as [other|z w|]; cbn; [|reflexivity|reflexivity].
    destruct (lines h !! other); reflexivity.
  - unfold ismatch, bind, ret, raise, get_line. by rewrite El.
  - intros z w. unfold ismatch, bind, ret, get_line. rewrite El. cbn.
    destruct (np_allclose (to_AA (wrest L)) _ _ _),
             (np_allclose (attr_z (attrib L)) _ _ _);
      destruct Zion as [[Z_ ion_]|], RADec as [[ra_ dec_]|]; cbn;
      try done.
Qed.

(** X14.  A line matches itself, given as a line, when the position
    collaborator puts it less than 0.1 arcsecond from itself. *)
Theorem ismatch_self_line self h L :
  lines h !! self = Some L ->
  (separation (attr_coord (attrib L)) (attr_coord (attrib L)) < 1 # 10)%Q ->
  ismatch self (InpLine self) None None h = (Ok true, h).
Proof.
  intros El Hs. apply Qlt_bool_iff in Hs.
  unfold ismatch, bind, ret, get_line. rewrite El.
  cbn -[np_allclose Qlt_bool]. rewrite El. cbn -[np_allclose Qlt_bool].
  rewrite !np_allclose_refl by done. rewrite !Z.eqb_refl, Hs. reflexivity.
Qed.

(** *** More on profiles *)

(** X15.  With [N] and [b] at least 1, [generate_voigt] given a
    wavelength array computes the profile on it, whether or not a spectrum
    is attached; given none, with a spectrum attached, it computes the
    profile on the dispersion axis of that spectrum.  It never changes the
    store. *)
Theorem generate_voigt_wave_source self h L :
  lines h !! self = Some L ->
  ~ (attr_N (attrib L) < 1)%Q -> ~ (attr_b (attrib L) < 1)%Q ->
  (forall w,
     generate_voigt self (Some w) h = (Ok (voigt_from_abslines w L), h))
  /\ (forall r sp,
        analy_spec (analy L) = Some r -> spectra h !! r = Some sp ->
        generate_voigt self None h
        = (Ok (voigt_from_abslines (dispersion sp) L), h))
  /\ (forall wave, snd (generate_voigt self wave h) = h).
Proof.
  intros El HN Hb.
  assert (EN : Qlt_bool (attr_N (attrib L)) 1 = false).
  { destruct (Qlt_bool (attr_N (attrib L)) 1) eqn:E; [|reflexivity].
    apply Qlt_bool_iff in E. contradiction. }
  assert (Eb : Qlt_bool (attr_b (attrib L)) 1 = false).
  { destruct (Qlt_bool (attr_b (attrib L)) 1) eqn:E; [|reflexivity].
    apply Qlt_bool_iff in E. contradiction. }
  unfold generate_voigt, bind, ret, raise, get_line. rewrite El, EN, Eb.
  split; [done|]. split.
  - intros r sp -> Es. by rewrite Es.
  - intros [w|]; [done|].
    destruct (analy_spec (analy L)) as [r|]; [|done].
    destruct (spectra h !! r); done.
Qed.

(** *** More on bulk construction *)

(** X16.  [many_abslines] reads the unit of the first wavelength only:
    it does what it does on the list of the same magnitudes all given in
    that unit. *)
Theorem many_abslines_first_unit first rest llist h :
  many_abslines (first :: rest) llist h
  = many_abslines
      (map (fun q => mkLength (qvalue q) (qunit first)) (first :: rest))
      llist h.
Proof.
  unfold many_abslines. cbn [map qunit qvalue].
  assert (E : map qvalue
                (map (fun q => mkLength (qvalue q) (qunit first)) rest)
              = map qvalue rest).
  { rewrite map_map. apply map_ext. reflexivity. }
  by rewrite E.
Qed.

Lemma insert_uniq_nonempty (x : Q) (l : list Q) : insert_uniq x l <> [].
Proof.
  destruct l as [|y l]; cbn; [done|].
  destruct (Qeq_bool x y); [done|]. destruct (Qle_bool x y); done.
Qed.

Lemma deepcopy_linelists p h :
  linelists (snd (deepcopy p h)) = linelists h.
Proof.
  unfold deepcopy, bind, get_line, get_spec, alloc_spec, alloc_line.
  destruct (lines h !! p) as [L|]; [|done].
  destruct (analy_spec (analy L)) as [s|]; [|done].
  destruct (spectra h !! s); done.
Qed.

Lemma copy_em_up_linelists wrestv adict :
  forall h, linelists (snd (copy_em_up wrestv adict h)) = linelists h.
Proof.
  induction wrestv as [|k rest IH]; intros h; [done|].
  cbn [copy_em_up]. destruct (dict_get adict k) as [p|]; [|done].
  unfold bind. pose proof (deepcopy_linelists p h) as Hd.
  destruct (deepcopy p h) as [[c|e] h1]; [|exact Hd].
  cbn in Hd. pose proof (IH h1) as Hc.
  destruct (copy_em_up rest adict h1) as [[cs|e] h2]; cbn in *; congruence.
Qed.

Lemma build_adict_closest r u uniq :
  forall adict h ll,
    linelists h !! r = Some ll ->
    uniq <> [] \/ closest ll = false ->
    linelists (snd (build_adict uniq u (LLRef r) adict h)) !! r
    = Some (set_closest ll false).
Proof.
  induction uniq as [|v rest IH]; intros adict h ll El Hc.
  - destruct Hc as [?|Hc]; [done|]. cbn. rewrite El. f_equal.
    destruct ll. cbn in *. by subst.
  - cbn [build_adict]. unfold bind.
    assert (Ht : TQuantity (mkLength v u) <> TOther) by discriminate.
    rewrite (AbsLine_init_unfold _ _ false 0 _ _ El Ht). cbv zeta.
    destruct (LineList_getitem _ _) as [d|e].
    + rewrite (IH _ _ (set_closest ll false)); [done| |by right].
      apply lookup_insert_eq.
    + apply lookup_insert_eq.
Qed.

(** X17.  Given a line list object and a non-empty list of wavelengths,
    [many_abslines] leaves that object with [closest = False] and its
    catalog as it was, whether it returns or raises. *)
Theorem many_abslines_leaves_closest_false first rest r h ll :
  linelists h !! r = Some ll ->
  linelists (snd (many_abslines (first :: rest) (LLRef r) h)) !! r
  = Some (set_closest ll false).
Proof.
  intros El. unfold many_abslines, bind.
  pose proof (build_adict_closest r (qunit first)
                (np_unique (map qvalue (first :: rest))) [] h ll El) as Hb.
  destruct (build_adict _ _ _ _ h) as [[adict|e] h1].
  - rewrite copy_em_up_linelists. apply Hb. left.
    cbn. apply insert_uniq_nonempty.
  - apply Hb. left. cbn. apply insert_uniq_nonempty.
Qed.

End Properties.

(** ** The properties on sample lines *)

#[local] Existing Instance Sample.collaborators.

(** Ly-alpha at [z = 1/2] with a wavelength window measures a rest-frame
    equivalent width. *)
Lemma measure_restew_rest_frame_witness :
  let self := 0%nat in
  let h := Sample.heap_of (Sample.lya (1 # 2) [1215; 1217]%Q [0; 0]%Q)
                          Sample.spec_conti in
  let res := fst (measure_ew self 1 None h) in
  let h1 := snd (measure_ew self 1 None h) in
  measure_ew self 1 None h = (res, h1)
  /\ res = Ok tt
  /\ exists L L1 s h2 L2,
       lines h !! self = Some L /\ lines h1 !! self = Some L1
       /\ attr_sigEW (attrib L1) = Some s
       /\ measure_restew self 1 None h = (Ok tt, h2)
       /\ lines h2 !! self = Some L2
       /\ attr_EW (attrib L2)
          = (attr_EW (attrib L1) / (1 + attr_z (attrib L)))%Q
       /\ attr_sigEW (attrib L2) = Some (s / (1 + attr_z (attrib L)))%Q
       /\ (attr_z (attrib L) = 0%Q -> h2 = h1).
Proof.
  intros self h res h1.
  assert (E : measure_ew self 1 None h = (res, h1)) by (vm_compute; reflexivity).
  assert (Er : res = Ok tt) by (vm_compute; reflexivity).
  split; [exact E|]. split; [exact Er|].
  generalize (measure_restew_rest_frame self 1 None h res h1 E).
  rewrite Er. exact (fun x => x).
Defined.

(** On the same line the column density is saturated-free and below
    three sigma. *)
Lemma measure_aodm_flags_witness :
  let self := 0%nat in
  let h := Sample.heap_of (Sample.lya 0 [1215; 1217]%Q [0; 0]%Q)
                          Sample.spec_conti in
  let res := fst (cut_spec self true h) in
  let h0 := snd (cut_spec self true h) in
  cut_spec self true h = (res, h0)
  /\ is_Ok res
  /\ exists h1 L1,
       measure_aodm self 3 h = (Ok tt, h1) /\ lines h1 !! self = Some L1
       /\ attr_flagN (attrib L1) = 1%Z.
Proof.
  intros self h res h0.
  assert (E : cut_spec self true h = (res, h0)) by (vm_compute; reflexivity).
  split; [exact E|]. split; [vm_compute; exact I|].
  generalize (measure_aodm_flags self 3 h res h0 E).
  destruct res as [[[fx sg] [wv ve]]|e] eqn:Er; [|vm_compute in Er; discriminate].
  intros (L0 & L1 & h1 & _ & Em & El & _).
  exists h1, L1. split; [exact Em|]. split; [exact El|].
  assert (Ec : lines h1 !! self = lines (snd (measure_aodm self 3 h)) !! self)
    by (by rewrite Em).
  rewrite Ec in El. vm_compute in El. by injection El as <-.
Defined.

(** With a wavelength window the checks pass and the pixels are those of
    the window. *)
Lemma cut_spec_preconditions_witness :
  let self := 0%nat in
  let L := Sample.lya 0 [1215; 1217]%Q [0; 0]%Q in
  let h := Sample.heap_of L Sample.spec_conti in
  lines h !! self = Some L
  /\ (forall r, analy_spec (analy L) = Some r -> is_Some (spectra h !! r))
  /\ exists out h' L',
       cut_spec self false h = (Ok out, h')
       /\ lines h' !! self = Some L'
       /\ analy_pix (analy L') = Some [1; 2; 3]%nat.
Proof.
  intros self L h.
  assert (E1 : lines h !! self = Some L) by reflexivity.
  assert (E2 : forall r, analy_spec (analy L) = Some r ->
                         is_Some (spectra h !! r)).
  { intros r [= <-]. by eexists. }
  split; [exact E1|]. split; [exact E2|].
  destruct (cut_spec_preconditions self false h L E1 E2)
    as (_ & _ & _ & Hw).
  destruct (Hw 1%nat Sample.spec_conti eq_refl eq_refl) as (pix & Hp & _ & Ha).
  { discriminate. }
  { left. apply Exists_cons_hd. reflexivity. }
  rewrite Hp in Ha; [|apply Exists_cons_hd; reflexivity].
  apply Ha. unfold aligned, in_range.
  split_and!; [| | | |discriminate]; vm_compute; repeat constructor.
Defined.

(** Ly-alpha matches the pair of its redshift and rest wavelength. *)
Lemma ismatch_tolerances_witness :
  let self := 0%nat in
  let L := Sample.lya (1 # 2) [0; 0]%Q [0; 0]%Q in
  let h := Sample.heap_of L Sample.spec_conti in
  lines h !! self = Some L
  /\ ismatch self (InpTuple (attr_z (attrib L)) (wrest L)) None None h
     = (Ok true, h).
Proof.
  intros self L h.
  assert (E1 : lines h !! self = Some L) by reflexivity.
  split; [exact E1|].
  exact (proj2 (ismatch_tolerances self h L E1)).
Defined.

(** The sample spectrum with a continuum of 2 is normalised by it: the
    flux [1; 1/2; 1] of the window becomes [1/2; 1/4; 1/2], the
    uncertainty [1/10] becomes [1/20]. *)
Lemma cut_spec_normalize_witness :
  let self := 0%nat in
  let L := Sample.lya 0 [1215; 1217]%Q [0; 0]%Q in
  let sp := Sample.spec_conti in
  let h := Sample.heap_of L sp in
  let fx := [1; 1 # 2; 1]%Q in
  let sg := [1 # 10; 1 # 10; 1 # 10]%Q in
  let xd := match fst (cut_spec self false h) with
            | Ok (_, _, xd) => xd
            | Raise _ => ([], [])
            end in
  let h1 := snd (cut_spec self false h) in
  cut_spec self false h = (Ok (fx, sg, xd), h1)
  /\ cut_spec self true h
     = (Ok ([1 # 2; 1 # 4; 1 # 2]%Q, [1 # 20; 1 # 20; 1 # 20]%Q, xd), h1).
Proof.
  intros self L sp h fx sg xd h1.
  assert (E : cut_spec self false h = (Ok (fx, sg, xd), h1))
    by (vm_compute; reflexivity).
  split; [exact E|].
  destruct (cut_spec_normalize self h L 1%nat sp fx sg xd h1
              eq_refl eq_refl eq_refl E)
    as (pix & L1 & El & Ep & _ & _ & _ & _ & Hc).
  assert (Epix : pix = [1; 2; 3]%nat).
  { vm_compute in El. injection El as <-. vm_compute in Ep. congruence. }
  subst pix.
  destruct (Hc [2; 2; 2; 2; 2]%Q eq_refl)
    as (fx' & sg' & Ecut & Lf & Ls & _ & _ & Hp).
  { unfold in_range. vm_compute. repeat constructor. }
  destruct (Hp 0%nat 1%nat eq_refl)
    as (f0 & s0 & c0 & Ef0 & Es0 & Ec0 & _ & _ & F0 & S0).
  destruct (Hp 1%nat 2%nat eq_refl)
    as (f1 & s1 & c1 & Ef1 & Es1 & Ec1 & _ & _ & F1 & S1).
  destruct (Hp 2%nat 3%nat eq_refl)
    as (f2 & s2 & c2 & Ef2 & Es2 & Ec2 & _ & _ & F2 & S2).
  vm_compute in Ef0, Es0, Ec0, Ef1, Es1, Ec1, Ef2, Es2, Ec2.
  injection Ef0 as <-. injection Es0 as <-. injection Ec0 as <-.
  injection Ef1 as <-. injection Es1 as <-. injection Ec1 as <-.
  injection Ef2 as <-. injection Es2 as <-. injection Ec2 as <-.
  destruct fx' as [|a0 [|a1 [|a2 [|]]]]; try discriminate Lf.
  destruct sg' as [|b0 [|b1 [|b2 [|]]]]; try discriminate Ls.
  cbn in F0, F1, F2, S0, S1, S2.
  injection F0 as ->. injection F1 as ->. injection F2 as ->.
  injection S0 as ->. injection S1 as ->. injection S2 as ->.
  exact Ecut.
Defined.

(** A line list shared with [closest = False] is set to [closest = True]
    by a constructor that asks for it. *)
Lemma fill_data_overwrites_closest_witness :
  let ll := Sample.LineList_new "ISM" in
  let h := Sample.heap_with_list ll in
  linelists h !! 5%nat = Some ll
  /\ closest ll = false
  /\ fst (get_linelist 5 (snd (AbsLine_init (TStr "CIV 1548") (LLRef 5)
                                            true 0 h)))
     = Ok (set_closest ll true).
Proof.
  intros ll h.
  assert (E : linelists h !! 5%nat = Some ll) by reflexivity.
  assert (Ht : TStr "CIV 1548" <> TOther) by discriminate.
  split; [exact E|]. split; [reflexivity|].
  exact (proj2 (proj1 (proj2 (fill_data_overwrites_closest
                                (Sample.lya 0 [] []) (TStr "CIV 1548") 5 true
                                h ll E)) 0%Q Ht)).
Defined.

(** Three wavelengths, two of them equal, from a list that was left at
    [closest = True]: three lines from two lookups, and [attrib['N'] = 7]
    on the first leaves the third, of the same wavelength, as it was.
    With 1300 Angstrom, which the list does not hold, after Ly-alpha: the
    error of that lookup, after one line was made. *)
Lemma many_abslines_copies_witness :
  let lya_w := mkLength (121567 # 100) AA in
  let civ_w := mkLength (1548195 # 1000) AA in
  let all_wrest := [lya_w; civ_w; lya_w] in
  let bad := [lya_w; mkLength 1300 AA] in
  let ll := set_closest (Sample.LineList_new "ISM") true in
  let h := Sample.heap_with_list ll in
  all_wrest <> []
  /\ Forall (fun q => qunit q = AA) all_wrest
  /\ linelists h !! 5%nat = Some ll
  /\ (forall v, In v (np_unique (map qvalue all_wrest)) ->
        is_Ok (LineList_getitem (set_closest ll false)
                                (TQuantity (mkLength v AA))))
  /\ (exists refs h',
        many_abslines all_wrest (LLRef 5) h = (Ok refs, h')
        /\ length refs = 3%nat /\ NoDup refs
        /\ lookup_log h' = [TQuantity lya_w; TQuantity civ_w]
        /\ exists r0 r2 L2,
             refs !! 0%nat = Some r0 /\ refs !! 2%nat = Some r2
             /\ lines h' !! r2 = Some L2
             /\ attr_N (attrib L2) = 0%Q
             /\ (attr_N ∘ attrib)
                  <$> lines (snd (assign_attrib_N r0 7 h')) !! r0
                = Some 7%Q
             /\ lines (snd (assign_attrib_N r0 7 h')) !! r2 = Some L2)
  /\ bad <> []
  /\ Forall (fun q => qunit q = AA) bad
  /\ exists h',
       many_abslines bad (LLRef 5) h
       = (Raise (TransitionNotFound "no such transition"), h')
       /\ next_id h' = 7%nat
       /\ lookup_log h' = [TQuantity lya_w; TQuantity (mkLength 1300 AA)].
Proof.
  intros lya_w civ_w all_wrest bad ll h.
  assert (H1 : all_wrest <> []) by discriminate.
  assert (H2 : Forall (fun q => qunit q = AA) all_wrest)
    by (repeat constructor).
  assert (H3 : linelists h !! 5%nat = Some ll) by reflexivity.
  assert (H4 : forall v, In v (np_unique (map qvalue all_wrest)) ->
                 is_Ok (LineList_getitem (set_closest ll false)
                                         (TQuantity (mkLength v AA)))).
  { intros v Hv. vm_compute in Hv.
    destruct Hv as [<-|[<-|[]]]; vm_compute; exact I. }
  assert (B1 : bad <> []) by discriminate.
  assert (B2 : Forall (fun q => qunit q = AA) bad) by (repeat constructor).
  split; [exact H1|]. split; [exact H2|]. split; [exact H3|].
  split; [exact H4|].
  split.
  - destruct (many_abslines_copies all_wrest 5 h ll AA H1 H2 H3)
      as (PA & _ & _).
    destruct (PA H4)
      as (refs & h' & E & Hl & Hi & Elog & _ & _ & Hnd & _ & _ & _ & Hw).
    exists refs, h'. split; [exact E|]. split; [exact Hl|].
    split; [exact Hnd|]. split; [rewrite Elog; vm_compute; reflexivity|].
    destruct (Hi 0%nat lya_w eq_refl) as (r0 & _ & _ & Er0 & _).
    destruct (Hi 2%nat lya_w eq_refl) as (r2 & v2 & d2 & Er2 & _ & _ & _ & El2).
    assert (Hne : 0%nat <> 2%nat) by discriminate.
    destruct (Hw 0%nat 2%nat r0 r2 7%Q Hne Er0 Er2)
      as (L0 & L2 & _ & _ & El2' & _ & _ & _ & Ew0 & Ew2).
    exists r0, r2, L2. split; [exact Er0|]. split; [exact Er2|].
    split; [exact El2'|].
    split; [rewrite El2 in El2'; injection El2' as <-; reflexivity|].
    split; [rewrite Ew0; reflexivity | exact Ew2].
  - split; [exact B1|]. split; [exact B2|].
    destruct (many_abslines_copies bad 5 h ll AA B1 B2 H3) as (_ & PB & _).
    destruct (PB [121567 # 100]%Q 1300%Q []
                 (TransitionNotFound "no such transition"))
      as (h' & E & _ & En & Elog).
    { vm_compute. reflexivity. }
    { intros x [<-|[]]. vm_compute. exact I. }
    { vm_compute. reflexivity. }
    exists h'. split; [exact E|]. split; [exact En|].
    rewrite Elog. reflexivity.
Defined.

(** C7.  Ly-alpha with [N] and [b] set, no spectrum attached and no
    wavelength array given: [generate_voigt] gets to its
    [raise ('You must provide a wavelength array in generate_voigt')],
    which raises a [TypeError] because a string is not an exception. *)
Theorem generate_voigt_raises_TypeError :
  let L := Sample.with_Nb
             (Sample.line_of Sample.HI_1215 0 None [0; 0]%Q [0; 0]%Q)
             10000000000000 10 in
  let h := Sample.heap_of L Sample.spec_conti in
  (1 <= attr_N (attrib L))%Q /\ (1 <= attr_b (attrib L))%Q
  /\ analy_spec (analy L) = None
  /\ generate_voigt 0 None h
     = (Raise (TypeError "exceptions must derive from BaseException"), h).
Proof.
  cbv zeta. split; [discriminate|]. split; [discriminate|].
  split; reflexivity.
Qed.

(** C3, the claim as stated fails: [cut_spec] on Ly-alpha writes the
    [velo] attribute of the attached spectrum, which had none. *)
Lemma cut_spec_writes_velo :
  let h := Sample.heap_of (Sample.lya 0 [1215; 1217]%Q [0; 0]%Q)
                          Sample.spec_conti in
  let h' := snd (cut_spec 0 false h) in
  is_Ok (fst (cut_spec 0 false h))
  /\ spectra h !! 1%nat = Some Sample.spec_conti
  /\ velo Sample.spec_conti = None
  /\ spectra h' !! 1%nat
     = Some (set_velo Sample.spec_conti
               (Sample.relative_vel Sample.spec_conti
                  (mkLength (121567 # 100) AA)))
  /\ spectra h' <> spectra h.
Proof.
  cbv zeta. split; [vm_compute; exact I|]. split; [reflexivity|].
  split; [reflexivity|].
  assert (E : spectra (snd (cut_spec 0 false
                (Sample.heap_of (Sample.lya 0 [1215; 1217]%Q [0; 0]%Q)
                                Sample.spec_conti))) !! 1%nat
              = Some (set_velo Sample.spec_conti
                        (Sample.relative_vel Sample.spec_conti
                           (mkLength (121567 # 100) AA))))
    by (vm_compute; reflexivity).
  split; [exact E|].
  intros Heq. rewrite Heq in E. vm_compute in E. discriminate.
Qed.

(** C4, the claim as stated fails: the wavelength interval [-1, 0] is
    not zero, and [cut_spec] raises the need-a-window error. *)
Lemma cut_spec_refuses_negative_wvlim :
  let L := Sample.lya 0 [-1; 0]%Q [0; 0]%Q in
  let h := Sample.heap_of L Sample.spec_conti in
  nonzero (analy_wvlim (analy L))
  /\ fst (cut_spec 0 false h)
     = Raise (ValueError "spectralline.cut_spec: Need to set wvlim or vlim!").
Proof.
  cbv zeta. split; [|vm_compute; reflexivity].
  apply Exists_cons_hd. discriminate.
Qed.

(** C5, the claim as stated fails: Ly-alpha at [z = 0.001] matches a rest
    wavelength that is off by 0.01 Angstrom, more than [1e-8], and a
    redshift that is off by a relative [5e-6], more than [1e-6]. *)
Lemma ismatch_accepts_perturbed :
  let L := Sample.lya (1 # 1000) [0; 0]%Q [0; 0]%Q in
  let h := Sample.heap_of L Sample.spec_conti in
  let w' := mkLength (121568 # 100) AA in
  let z' := (1000005 # 1000000000)%Q in
  fst (ismatch 0 (InpTuple (attr_z (attrib L)) w') None None h) = Ok true
  /\ ~ (Qabs (to_AA (wrest L) - to_AA w') <= 1 # 100000000)%Q
  /\ fst (ismatch 0 (InpTuple z' (wrest L)) None None h) = Ok true
  /\ ~ (Qabs (attr_z (attrib L) - z') <= (1 # 1000000) * Qabs z')%Q.
Proof.
  cbv zeta. split; [vm_compute; reflexivity|].
  split; [intros Hle; vm_compute in Hle; by apply Hle|].
  split; [vm_compute; reflexivity|].
  intros Hle; vm_compute in Hle; by apply Hle.
Qed.

(** C8, the claim as stated fails: a line list with [closest = True]
    resolves 1215 Angstrom to Ly-alpha, the nearest transition; given
    that list, [many_abslines] raises and returns no line, because the
    constructor it calls sets the list to [closest = False] before the
    lookup. *)
Lemma many_abslines_resets_closest :
  let w := mkLength 1215 AA in
  let ll := set_closest (Sample.LineList_new "ISM") true in
  let h := Sample.heap_with_list ll in
  LineList_getitem ll (TQuantity w) = Ok Sample.HI_1215
  /\ fst (many_abslines [w] (LLRef 5) h)
     = Raise (TransitionNotFound "no such transition")
  /\ closest <$> linelists (snd (many_abslines [w] (LLRef 5) h)) !! 5%nat
     = Some false.
Proof.
  cbv zeta. split; [vm_compute; reflexivity|].
  split; vm_compute; reflexivity.
Qed.


(** ** Further properties on sample lines *)

Lemma sample_velo_blind : velo_blind.
Proof. split; [|split]; intros; reflexivity. Qed.

(** C IV 1548 is made at redshift 1/2 from a shared list. *)
Lemma AbsLine_init_result_witness :
  let h := Sample.heap_with_list (Sample.LineList_new "ISM") in
  let h' := snd (AbsLine_init (TStr "CIV 1548") (LLRef 5) false (1 # 2) h) in
  AbsLine_init (TStr "CIV 1548") (LLRef 5) false (1 # 2) h = (Ok 6%nat, h')
  /\ lines h' !! 6%nat = Some (fresh_line Sample.CIV_1548 (1 # 2))
  /\ lookup_log h' = [TStr "CIV 1548"].
Proof.
  intros h h'.
  assert (E : AbsLine_init (TStr "CIV 1548") (LLRef 5) false (1 # 2) h
              = (Ok 6%nat, h')) by (vm_compute; reflexivity).
  split; [exact E|].
  destruct (AbsLine_init_result _ _ _ _ _ _ _ E)
    as (_ & _ & _ & Elog & d & El & _ & _ & _ & _ & ll & Ell & Ed & _).
  vm_compute in Ell. injection Ell as <-.
  vm_compute in Ed. injection Ed as <-.
  split; [by rewrite El, lookup_insert_eq | exact Elog].
Defined.

(** The new line cannot be cut before a spectrum is attached. *)
Lemma new_line_needs_setup_witness :
  let h := Sample.heap_with_list (Sample.LineList_new "ISM") in
  let h' := snd (AbsLine_init (TStr "CIV 1548") (LLRef 5) false (1 # 2) h) in
  AbsLine_init (TStr "CIV 1548") (LLRef 5) false (1 # 2) h = (Ok 6%nat, h')
  /\ measure_aodm 6 3 h'
     = (Raise (ValueError "spectralline.cut_spec: Need to set spectrum!"), h').
Proof.
  intros h h'.
  assert (E : AbsLine_init (TStr "CIV 1548") (LLRef 5) false (1 # 2) h
              = (Ok 6%nat, h')) by (vm_compute; reflexivity).
  split; [exact E|].
  exact (proj1 (proj2 (proj2 (proj2 (new_line_needs_setup _ _ _ _ _ _ _ E))))
           3%Q).
Defined.

(** With an uncertainty array that lacks pixel 3 the call raises
    [IndexError], the pixels cached. *)
Lemma cut_spec_failure_effects_witness :
  let h := Sample.heap_of (Sample.lya 0 [1215; 1217]%Q [0; 0]%Q)
                          Sample.spec_short_sig in
  let h' := snd (cut_spec 0 false h) in
  cut_spec 0 false h = (Raise IndexError, h')
  /\ exists L', lines h' !! 0%nat = Some L'
                /\ analy_pix (analy L') = Some [1; 2; 3]%nat.
Proof.
  intros h h'.
  assert (E : cut_spec 0 false h = (Raise IndexError, h'))
    by (vm_compute; reflexivity).
  split; [exact E|].
  destruct (proj2 (cut_spec_failure_effects _ _ _ _ _ E) eq_refl)
    as (L & r & sp & pix & El & Er & Es & Ew & El').
  vm_compute in El. injection El as <-.
  vm_compute in Er. injection Er as <-.
  vm_compute in Es. injection Es as <-.
  vm_compute in Ew. injection Ew as <-.
  eexists. split; [exact El'|]. reflexivity.
Defined.

(** The normalised window of the sample spectrum has three pixels. *)
Lemma cut_spec_pixelwise_witness :
  let h := Sample.heap_of (Sample.lya 0 [1215; 1217]%Q [0; 0]%Q)
                          Sample.spec_conti in
  let out := match fst (cut_spec 0 true h) with
             | Ok o => o
             | Raise _ => ([], [], ([], []))
             end in
  let h' := snd (cut_spec 0 true h) in
  cut_spec 0 true h = (Ok (out.1.1, out.1.2, (out.2.1, out.2.2)), h')
  /\ out.1.1 = [1 # 2; 1 # 4; 1 # 2]%Q
  /\ exists pix L',
       lines h' !! 0%nat = Some L' /\ analy_pix (analy L') = Some pix
       /\ length out.1.1 = length pix /\ length out.2.2 = length pix.
Proof.
  intros h out h'.
  assert (E : cut_spec 0 true h
              = (Ok (out.1.1, out.1.2, (out.2.1, out.2.2)), h'))
    by (vm_compute; reflexivity).
  split; [exact E|]. split; [vm_compute; reflexivity|].
  destruct (cut_spec_pixelwise _ _ _ _ _ _ _ _ E)
    as (L & r & sp & pix & L' & _ & _ & _ & El & Ep & Lf & _ & _ & Lv & _).
  by exists pix, L'.
Defined.

(** Cutting the sample spectrum twice. *)
Lemma cut_spec_idempotent_witness :
  let h := Sample.heap_of (Sample.lya 0 [1215; 1217]%Q [0; 0]%Q)
                          Sample.spec_conti in
  let out := match fst (cut_spec 0 true h) with
             | Ok o => o
             | Raise _ => ([], [], ([], []))
             end in
  let h1 := snd (cut_spec 0 true h) in
  velo_blind
  /\ cut_spec 0 true h = (Ok out, h1)
  /\ cut_spec 0 true h1 = (Ok out, h1).
Proof.
  intros h out h1.
  assert (E : cut_spec 0 true h = (Ok out, h1)) by (vm_compute; reflexivity).
  split; [exact sample_velo_blind|]. split; [exact E|].
  exact (cut_spec_idempotent 0 true h out h1 sample_velo_blind E).
Defined.

(** Measuring the equivalent width twice. *)
Lemma measure_ew_idempotent_witness :
  let h := Sample.heap_of (Sample.lya (1 # 2) [1215; 1217]%Q [0; 0]%Q)
                          Sample.spec_conti in
  let h1 := snd (measure_ew 0 1 None h) in
  measure_ew 0 1 None h = (Ok tt, h1)
  /\ measure_ew 0 1 None h1 = (Ok tt, h1).
Proof.
  intros h h1.
  assert (E : measure_ew 0 1 None h = (Ok tt, h1)) by (vm_compute; reflexivity).
  split; [exact E|].
  exact (measure_ew_idempotent 0 1 None h h1 sample_velo_blind E).
Defined.

(** Measuring the rest-frame equivalent width twice. *)
Lemma measure_restew_idempotent_witness :
  let h := Sample.heap_of (Sample.lya (1 # 2) [1215; 1217]%Q [0; 0]%Q)
                          Sample.spec_conti in
  let h2 := snd (measure_restew 0 1 None h) in
  measure_restew 0 1 None h = (Ok tt, h2)
  /\ measure_ew 0 1 None h2 = measure_ew 0 1 None h
  /\ measure_restew 0 1 None h2 = (Ok tt, h2).
Proof.
  intros h h2.
  assert (E : measure_restew 0 1 None h = (Ok tt, h2))
    by (vm_compute; reflexivity).
  split; [exact E|].
  exact (measure_restew_idempotent 0 1 None h h2 sample_velo_blind E).
Defined.

(** The boxcar equivalent width of the sample window is 7/4. *)
Lemma measure_ew_writes_witness :
  let L := Sample.lya (1 # 2) [1215; 1217]%Q [0; 0]%Q in
  let h := Sample.heap_of L Sample.spec_conti in
  let h1 := snd (measure_ew 0 1 None h) in
  measure_ew 0 1 None h = (Ok tt, h1)
  /\ lines h !! 0%nat = Some L
  /\ exists L1, lines h1 !! 0%nat = Some L1
                /\ attr_EW (attrib L1) = (7 # 4)%Q
                /\ attr_EWsig (attrib L1) = 0%Q.
Proof.
  intros L h h1.
  assert (E : measure_ew 0 1 None h = (Ok tt, h1)) by (vm_compute; reflexivity).
  assert (El : lines h !! 0%nat = Some L) by reflexivity.
  split; [exact E|]. split; [exact El|].
  destruct (measure_ew_writes 0 1 None h h1 L E El)
    as (fx & sg & wv & ve & h0 & ew & L1 & Ec & Hew & El1 & _ & Eew & _
        & Es & _).
  exists L1. split; [exact El1|]. split; [|exact Es].
  rewrite Eew. destruct Hew as [[_ ->]|[? _]]; [|discriminate].
  assert (Ex : fst (cut_spec 0 true h) = Ok (fx, sg, (wv, ve)))
    by (by rewrite Ec).
  vm_compute in Ex. injection Ex as <- <- <- <-. vm_compute. reflexivity.
Defined.

(** Flag 3 on the sample line. *)
Lemma measure_ew_bad_flag_witness :
  let h := Sample.heap_of (Sample.lya (1 # 2) [1215; 1217]%Q [0; 0]%Q)
                          Sample.spec_conti in
  3%Z <> 1%Z /\ 3%Z <> 2%Z
  /\ fst (measure_ew 0 3 None h)
     = Raise (ValueError "measure_ew: Not ready for this flag 3")
  /\ attrib <$> lines (snd (measure_ew 0 3 None h)) = attrib <$> lines h.
Proof.
  intros h.
  assert (F1 : 3%Z <> 1%Z) by discriminate.
  assert (F2 : 3%Z <> 2%Z) by discriminate.
  split; [exact F1|]. split; [exact F2|].
  destruct (measure_ew_bad_flag 0 3 None h F1 F2) as (E1 & _ & E3).
  split; [|exact E3]. rewrite E1. vm_compute. reflexivity.
Defined.

(** The column density of the sample line, its uncertainty and its flag,
    as the sample [aodm] gives them for the normalised window. *)
Lemma measure_aodm_keeps_witness :
  let L := Sample.lya 0 [1215; 1217]%Q [0; 0]%Q in
  let h := Sample.heap_of L Sample.spec_conti in
  let h1 := snd (measure_aodm 0 3 h) in
  measure_aodm 0 3 h = (Ok tt, h1)
  /\ lines h !! 0%nat = Some L
  /\ exists L1, lines h1 !! 0%nat = Some L1
                /\ attr_Nsig (attrib L1) = 0%Q
                /\ attr_N (attrib L1) = (437500 # 126551247)%Q
                /\ attr_sigN (attrib L1) = Some (12500 # 42183749)%Q
                /\ attr_flagN (attrib L1) = 1%Z
                /\ attr_logN (attrib L1) = Some (437500 # 126551247)%Q
                /\ attr_sig_logN (attrib L1) = Some (12500 # 42183749)%Q.
Proof.
  intros L h h1.
  assert (E : measure_aodm 0 3 h = (Ok tt, h1)) by (vm_compute; reflexivity).
  assert (El : lines h !! 0%nat = Some L) by reflexivity.
  split; [exact E|]. split; [exact El|].
  pose proof (measure_aodm_keeps 0 3 h h1 L E El) as K. cbv zeta in K.
  destruct K as (L1 & El1 & En & _ & _ & _ & _ & _ & _ & _
                 & fx & sg & wv & ve & h0 & Ec & EN & EsN & Efl & ElN & EslN).
  assert (Ex : fst (cut_spec 0 true h) = Ok (fx, sg, (wv, ve)))
    by (by rewrite Ec).
  vm_compute in Ex. injection Ex as <- <- <- <-.
  exists L1. split; [exact El1|]. split; [exact En|].
  rewrite EN, EsN, Efl, ElN, EslN. vm_compute. by split_and!.
Defined.

(** Ly-alpha against C IV 1548, as a line and as a tuple. *)
Lemma ismatch_line_as_tuple_witness :
  let Lo := Sample.line_of Sample.CIV_1548 0 None [0; 0]%Q [0; 0]%Q in
  let h := mkHeap {[ 0%nat := Sample.lya 0 [0; 0]%Q [0; 0]%Q; 2%nat := Lo ]}
                  {[ 1%nat := Sample.spec_conti ]} ∅ 3 [] in
  lines h !! 2%nat = Some Lo
  /\ ismatch 0 (InpLine 2) None None h
     = ismatch 0 (InpTuple 0 (wrest Lo)) (Some (6, 4)%Z) (Some (0, 0)%Q) h
  /\ fst (ismatch 0 (InpLine 2) None None h) = Ok false.
Proof.
  intros Lo h.
  assert (El : lines h !! 2%nat = Some Lo) by reflexivity.
  split; [exact El|].
  split; [exact (ismatch_line_as_tuple 0 2 None None h Lo El)|].
  vm_compute. reflexivity.
Defined.

(** Ly-alpha matches its own pair with its ion given, and without. *)
Lemma ismatch_criteria_restrict_witness :
  let L := Sample.lya (1 # 2) [0; 0]%Q [0; 0]%Q in
  let h := Sample.heap_of L Sample.spec_conti in
  lines h !! 0%nat = Some L
  /\ fst (ismatch 0 (InpTuple (1 # 2) (wrest L)) (Some (1, 1)%Z) None h)
     = Ok true
  /\ fst (ismatch 0 (InpTuple (1 # 2) (wrest L)) None None h) = Ok true.
Proof.
  intros L h.
  assert (El : lines h !! 0%nat = Some L) by reflexivity.
  assert (E : fst (ismatch 0 (InpTuple (1 # 2) (wrest L)) (Some (1, 1)%Z)
                     None h) = Ok true) by (vm_compute; reflexivity).
  split; [exact El|]. split; [exact E|].
  exact (proj2 (proj2 (ismatch_criteria_restrict 0 (InpLine 0) (Some (1, 1)%Z)
                         None h L El)) (1 # 2)%Q (wrest L) E).
Defined.

(** Ly-alpha matches itself. *)
Lemma ismatch_self_line_witness :
  let L := Sample.lya (1 # 2) [0; 0]%Q [0; 0]%Q in
  let h := Sample.heap_of L Sample.spec_conti in
  lines h !! 0%nat = Some L
  /\ (separation (attr_coord (attrib L)) (attr_coord (attrib L)) < 1 # 10)%Q
  /\ ismatch 0 (InpLine 0) None None h = (Ok true, h).
Proof.
  intros L h.
  assert (El : lines h !! 0%nat = Some L) by reflexivity.
  assert (Hs : (separation (attr_coord (attrib L)) (attr_coord (attrib L))
                < 1 # 10)%Q) by reflexivity.
  split; [exact El|]. split; [exact Hs|].
  exact (ismatch_self_line 0 h L El Hs).
Defined.

(** Ly-alpha with [N] and [b] set and the sample spectrum attached. *)
Lemma generate_voigt_wave_source_witness :
  let L := Sample.with_Nb (Sample.lya 0 [0; 0]%Q [0; 0]%Q) 10000000000000 10 in
  let h := Sample.heap_of L Sample.spec_conti in
  lines h !! 0%nat = Some L
  /\ ~ (attr_N (attrib L) < 1)%Q /\ ~ (attr_b (attrib L) < 1)%Q
  /\ generate_voigt 0 None h
     = (Ok (voigt_from_abslines (dispersion Sample.spec_conti) L), h).
Proof.
  intros L h.
  assert (El : lines h !! 0%nat = Some L) by reflexivity.
  assert (HN : ~ (attr_N (attrib L) < 1)%Q) by discriminate.
  assert (Hb : ~ (attr_b (attrib L) < 1)%Q) by discriminate.
  split; [exact El|]. split; [exact HN|]. split; [exact Hb|].
  exact (proj1 (proj2 (generate_voigt_wave_source 0 h L El HN Hb))
           1%nat Sample.spec_conti eq_refl eq_refl).
Defined.

(** A list handed over with [closest = True]. *)
Lemma many_abslines_leaves_closest_false_witness :
  let ll := set_closest (Sample.LineList_new "ISM") true in
  let h := Sample.heap_with_list ll in
  let w := mkLength (121567 # 100) AA in
  linelists h !! 5%nat = Some ll
  /\ closest ll = true
  /\ linelists (snd (many_abslines [w; w] (LLRef 5) h)) !! 5%nat
     = Some (set_closest ll false).
Proof.
  intros ll h w.
  assert (El : linelists h !! 5%nat = Some ll) by reflexivity.
  split; [exact El|]. split; [reflexivity|].
  exact (many_abslines_leaves_closest_false w [w] 5 h ll El).
Defined.
